(** * Mass regression notebooks: the sampler, the target scaling, the
      training step and the feature-scaling layer

    A shallow embedding of [mass_regression_lecture5.ipynb] (functions
    [get_data], [loss_func], [scale_target], [train_step], [train_loop])
    and of the [FeatureScaling] layer of [keras_api_solution_lecture4.ipynb].

    Conventions of the embedding.
    - A numpy / tensorflow array of floats is a [list R]; a two-dimensional
      array is the list of its rows.
    - The sampler is embedded twice.  In [MassRegression] arithmetic is
      the arithmetic of the real numbers and [astype(np.float32)] is the
      identity: what is proved there holds over real arithmetic, and of
      the code where no rounding enters (counts, shapes, the loop test,
      the generator).  In [Float32] every cast and every operation on a
      float32 array rounds, through an interface of float32 arithmetic;
      the first embedding is the second one without rounding.  The target
      scaling, the loss and the feature-scaling layer are embedded over
      the real numbers only.
    - A float that is not a finite number (the [nan] of an empty mean, the
      [inf] or [nan] of a division by zero) is [None] in an [option R].
      Every comparison with such a value is false, as it is for [nan] and,
      for [abs(x) < c], for [inf].
    - The global numpy generator is threaded explicitly: a sampling
      function takes the generator state and returns the state it leaves.
    - The only loop of the sampler that is not a counted loop is bounded by
      a [fuel] argument: the number of times its body may run. *)

From Stdlib Require Import Reals Lra Lia List Arith.
From Stdlib Require String.
From Stdlib Require Import ClassicalEpsilon FunctionalExtensionality.
Import ListNotations.

Open Scope R_scope.

(** ** Arrays *)

Module Numpy.

Definition array := list R.
Definition array2 := list (list R).

(** Comparisons of floats, as booleans. *)
Definition gtb (x y : R) : bool := if Rgt_dec x y then true else false.
Definition ltb (x y : R) : bool := if Rlt_dec x y then true else false.

(** A comparison against a value that may be [nan]. *)
Definition gtb_nan (x : option R) (y : R) : bool :=
  match x with Some v => gtb v y | None => false end.
Definition ltb_nan (x : option R) (y : R) : bool :=
  match x with Some v => ltb v y | None => false end.

(** [a / b] on floats: not a finite number when [b] is zero. *)
Definition divide (a b : R) : option R :=
  if Req_dec_T b 0 then None else Some (a / b).

(** A scalar function that may leave the finite numbers, on each entry of
    an array: [None] when some entry of the result is not a finite number,
    which the arrays of this embedding do not hold. *)
Fixpoint elementwise (f : R -> option R) (a : array) : option array :=
  match a with
  | [] => Some []
  | x :: a' =>
      match f x, elementwise f a' with
      | Some y, Some ys => Some (y :: ys)
      | _, _ => None
      end
  end.

(** [np.zeros_like(a)] *)
Definition zeros_like (a : array) : array := repeat 0 (length a).

(** [a.astype(np.float32)] over the real numbers, where nothing is
    rounded; the cast that rounds is [Float32.astype_float32]. *)
Definition astype_float32 (a : array) : array := a.

(** Elementwise binary operation on two arrays of one shape. *)
Definition map2 {A B C} (f : A -> B -> C) (a : list A) (b : list B) : list C :=
  map (fun ab => f (fst ab) (snd ab)) (combine a b).

(** [np.sum(mask)] of a boolean array: the number of [True] entries. *)
Definition count_true (mask : list bool) : nat :=
  length (filter (fun b => b) mask).

Definition sum (a : array) : R := fold_right Rplus 0 a.

(** [np.mean(a)]: [nan] on the empty array. *)
Definition mean (a : array) : option R :=
  match a with
  | [] => None
  | _ => Some (sum a / INR (length a))
  end.

(** [np.mean(mask)] of a boolean array: [True] counts 1, [False] 0. *)
Definition mean_bool (mask : list bool) : option R :=
  mean (map (fun b : bool => if b then 1 else 0) mask).

(** [abs(a) > c] *)
Definition abs_gt (a : array) (c : R) : list bool :=
  map (fun x => gtb (Rabs x) c) a.

(** [a[mask] = values]: the entries of [a] selected by [mask] are replaced,
    in order, by [values]. *)
Fixpoint assign_masked (a : array) (mask : list bool) (values : array) : array :=
  match a, mask with
  | x :: a', true :: mask' =>
      match values with
      | v :: values' => v :: assign_masked a' mask' values'
      | [] => x :: assign_masked a' mask' []
      end
  | x :: a', false :: mask' => x :: assign_masked a' mask' values
  | _, _ => a
  end.

(** An elementwise operation on two one-dimensional arrays under the
    broadcasting rule: equal lengths pair up, a length of one is stretched,
    anything else is a shape error ([None]). *)
Definition broadcast {A} (f : R -> R -> A) (a b : array) : option (list A) :=
  if Nat.eqb (length a) (length b) then Some (map2 f a b)
  else match a, b with
       | [x], _ => Some (map (f x) b)
       | _, [y] => Some (map (fun x => f x y) a)
       | _, _ => None
       end.

(** The same rule on arrays whose entries need not be finite numbers. *)
Definition broadcast_with {X Y A} (f : X -> Y -> A) (a : list X) (b : list Y)
  : option (list A) :=
  if Nat.eqb (length a) (length b) then Some (map2 f a b)
  else match a, b with
       | [x], _ => Some (map (f x) b)
       | _, [y] => Some (map (fun x => f x y) a)
       | _, _ => None
       end.

(** [a[:, 0]]: an index error ([None]) on a row without a column 0. *)
Fixpoint column0 (a : array2) : option array :=
  match a with
  | [] => Some []
  | [] :: _ => None
  | (x :: _) :: rest =>
      match column0 rest with
      | Some c => Some (x :: c)
      | None => None
      end
  end.

(** Whether two one-dimensional shapes broadcast against each other. *)
Definition broadcastable (n m : nat) : bool :=
  (Nat.eqb n m || Nat.eqb n 1 || Nat.eqb m 1)%bool.

(** The entries of an array of floats when all of them are finite numbers. *)
Fixpoint finite_entries (a : list (option R)) : option array :=
  match a with
  | [] => Some []
  | Some x :: a' =>
      match finite_entries a' with
      | Some xs => Some (x :: xs)
      | None => None
      end
  | None :: _ => None
  end.

(** [np.stack([c0, c1, c2, c3], axis=1)]: row [i] holds the [i]-th entry of
    each column. *)
Fixpoint stack4 (c0 c1 c2 c3 : array) : array2 :=
  match c0, c1, c2, c3 with
  | x0 :: r0, x1 :: r1, x2 :: r2, x3 :: r3 =>
      [x0; x1; x2; x3] :: stack4 r0 r1 r2 r3
  | _, _, _, _ => []
  end.

End Numpy.

(** ** The random generator

    [np.random] is used through three of its functions.  The state of the
    generator and its two primitive draws are an interface: a double in
    [[0, 1)] and a standard normal deviate. *)

Class RandomState (G : Type) := {
  random_sample : G -> R * G;
  standard_normal : G -> R * G;
  random_sample_range : forall g, 0 <= fst (random_sample g) < 1
}.

Module Random.
Section Draws.
Context {G : Type} `{RandomState G}.

(** [n] successive draws with [draw]. *)
Fixpoint draws (draw : G -> R * G) (n : nat) (g : G) : Numpy.array * G :=
  match n with
  | O => ([], g)
  | S n' =>
      let '(x, g1) := draw g in
      let '(xs, g2) := draws draw n' g1 in
      (x :: xs, g2)
  end.

(** [np.random.uniform(low, high, n)]: [low + (high - low) * random_sample()]
    for each entry. *)
Definition uniform (low high : R) (n : nat) (g : G) : Numpy.array * G :=
  draws (fun g0 => let '(u, g1) := random_sample g0 in
                   (low + (high - low) * u, g1)) n g.

(** [np.random.normal(loc, scale, n)]: [loc + scale * standard_normal()]
    for each entry. *)
Definition normal (loc scale : R) (n : nat) (g : G) : Numpy.array * G :=
  draws (fun g0 => let '(z, g1) := standard_normal g0 in
                   (loc + scale * z, g1)) n g.

End Draws.
End Random.

(** ** The data generator of the mass regression notebook *)

Module MassRegression.

Import Numpy.

Section Sampler.
Context {G : Type} `{RandomState G}.

(** The [while] loop of [get_data]:
    [while np.mean(abs(eta) > 2.5) > 0.05: mask = abs(eta) > 2.5;
     eta[mask] = np.random.normal(0, 2.5, np.sum(mask))].
    The condition is tested before each run of the body; [fuel] bounds the
    number of runs and [iterations] counts them. *)
Fixpoint resample_loop (fuel : nat) (eta : array) (g : G) (iterations : nat)
  : option (array * G * nat) :=
  if gtb_nan (mean_bool (abs_gt eta 2.5)) 0.05 then
    match fuel with
    | O => None
    | S fuel' =>
        let mask := abs_gt eta 2.5 in
        let '(values, g1) := Random.normal 0 2.5 (count_true mask) g in
        resample_loop fuel' (assign_masked eta mask values) g1 (S iterations)
    end
  else Some (eta, g, iterations).

(** The local variables of one call of [get_data], with the number of runs
    of the loop body and the generator state the call leaves. *)
Record Locals := {
  p : array;
  m : array;
  phi : array;
  eta : array;
  e : array;
  theta : array;
  pt : array;
  vec : array2;
  iterations : nat;
  rng_after : G
}.

(** The columns stacked in the Cartesian basis. *)
Definition px_of (pt phi : array) : array := map2 (fun a b => a * cos b) pt phi.
Definition py_of (pt phi : array) : array := map2 (fun a b => a * sin b) pt phi.
Definition pz_of (p theta : array) : array := map2 (fun a b => a * sin b) p theta.

(** The body of [get_data(n, min_p, max_p, min_m, max_m, cartesian)]. *)
Definition get_data_body (fuel n : nat) (min_p max_p min_m max_m : R)
    (cartesian : bool) (g : G) : option Locals :=
  (* uniform momentum *)
  let '(p0, g1) := Random.uniform min_p max_p n g in
  let p := astype_float32 p0 in
  (* uniform masses *)
  let '(m0, g2) := Random.uniform min_m max_m n g1 in
  let m := astype_float32 m0 in
  (* isotrop azimuth *)
  let '(phi0, g3) := Random.uniform (- PI) PI n g2 in
  let phi := astype_float32 phi0 in
  (* centralized pseudo-rapidity with detector-like coverage *)
  match resample_loop fuel (zeros_like p) g3 0 with
  | None => None
  | Some (eta0, g4, k) =>
      let eta := astype_float32 eta0 in
      (* derive quantities *)
      let e := map2 (fun a b => sqrt (a * a + b * b)) p m in
      let theta := map (fun x => 2 * atan (exp (- x))) eta in
      let pt := map2 (fun a b => a * cos b) p theta in
      let vec :=
        if cartesian
        then stack4 e (px_of pt phi) (py_of pt phi) (pz_of p theta)
        else stack4 e pt eta phi in
      Some {| p := p; m := m; phi := phi; eta := eta; e := e; theta := theta;
              pt := pt; vec := vec; iterations := k; rng_after := g4 |}
  end.

(** [get_data]: the stacked batch and the masses (and the generator). *)
Definition get_data (fuel n : nat) (min_p max_p min_m max_m : R)
    (cartesian : bool) (g : G) : option (array2 * array * G) :=
  match get_data_body fuel n min_p max_p min_m max_m cartesian g with
  | None => None
  | Some l => Some (vec l, m l, rng_after l)
  end.

(** The relativistic invariant of one Cartesian sample [(e, px, py, pz)]
    against its mass. *)
Definition relativistic_invariant (row : list R) (mass : R) : Prop :=
  exists en px py pz,
    row = [en; px; py; pz] /\
    en * en - (px * px + py * py + pz * pz) = mass * mass /\
    sqrt (px * px + py * py + pz * pz) <= en.

(** The three uniform draws of a call with their generator states, in the
    order of the code. *)
Definition drawn_p (n : nat) (min_p max_p : R) (g : G) : array * G :=
  Random.uniform min_p max_p n g.
Definition drawn_m (n : nat) (min_p max_p min_m max_m : R) (g : G) : array * G :=
  Random.uniform min_m max_m n (snd (drawn_p n min_p max_p g)).
Definition drawn_phi (n : nat) (min_p max_p min_m max_m : R) (g : G) : array * G :=
  Random.uniform (- PI) PI n (snd (drawn_m n min_p max_p min_m max_m g)).

(** The batch a call returns, from its three uniform draws: the
    pseudorapidity column is the array of zeros the loop is entered with. *)
Definition drawn_batch (n : nat) (min_p max_p min_m max_m : R)
    (cartesian : bool) (g : G) : array2 :=
  let p := fst (drawn_p n min_p max_p g) in
  let m := fst (drawn_m n min_p max_p min_m max_m g) in
  let phi := fst (drawn_phi n min_p max_p min_m max_m g) in
  let eta := repeat 0 n in
  let e := map2 (fun a b => sqrt (a * a + b * b)) p m in
  let theta := map (fun x => 2 * atan (exp (- x))) eta in
  let pt := map2 (fun a b => a * cos b) p theta in
  if cartesian
  then stack4 e (px_of pt phi) (py_of pt phi) (pz_of p theta)
  else stack4 e pt eta phi.

End Sampler.

(** *** Setup: the configured ranges and the target scaling *)

(** The dictionary [data_spec]. *)
Record DataSpec := {
  min_p : R;
  max_p : R;
  min_m : R;
  max_m : R;
  cartesian : bool
}.

(** [{"min_p": 0.0, "max_p": 200.0, "min_m": 0.1, "max_m": 100.0,
     "cartesian": True}] *)
Definition notebook_data_spec : DataSpec :=
  {| min_p := 0; max_p := 200; min_m := 0.1; max_m := 100; cartesian := true |}.

(** The deep-learning library, as far as the notebook uses it: a model with
    weights [W] whose last layer has one unit, an optimizer with state [Opt],
    and the gradient of a recorded scalar with respect to the weights.  A
    model returns one output row per input row, each with one entry. *)
Class Framework (W Opt Grad : Type) := {
  model_call : W -> bool -> array2 -> array2;
  Adam : R -> Opt;
  tape_gradient : (W -> option R) -> W -> Grad;
  apply_gradients : Opt -> Grad -> W -> Opt * W;
  model_call_shape : forall w training x,
    length (model_call w training x) = length x /\
    Forall (fun row => length row = 1%nat) (model_call w training x)
}.

(** Whether the model at given weights returns finite numbers.  It does
    not once an update was made with a gradient that is not finite: the
    weights are [nan] from then on, and so is every output of the model. *)
Class FiniteOutputs (W : Type) := {
  finite_outputs : W -> bool
}.

Section Training.
Context {G : Type} `{RandomState G}.
Context {W Opt Grad : Type} `{Framework W Opt Grad} `{FiniteOutputs W}.
Variable data_spec : DataSpec.

(** [get_batch = functools.partial(get_data, **data_spec)] *)
Definition get_batch (fuel n : nat) (g : G) : option (array2 * array * G) :=
  get_data fuel n (min_p data_spec) (max_p data_spec)
           (min_m data_spec) (max_m data_spec) (cartesian data_spec) g.

Definition target_mu : R := 0.5 * (min_m data_spec + max_m data_spec).
(** [12.0**0.5] is the square root of 12. *)
Definition target_sigma : R := (max_m data_spec - min_m data_spec) / sqrt 12.

(** [scale_target(target, rescale=False)] on one value; on an array it acts
    on each entry.  The division is by [target_sigma], which is zero when
    the mass range is a single value. *)
Definition scale_target (target : R) (rescale : bool) : option R :=
  if rescale
  then Some ((target * target_sigma) + target_mu)
  else divide (target - target_mu) target_sigma.

(** [loss_func(pred, truth)]: [(pred - truth)**2.0] averaged over the batch
    axis.  The outer [option] is a shape error, the inner one [nan]. *)
Definition loss_func (pred truth : array) : option (option R) :=
  match broadcast Rminus pred truth with
  | None => None
  | Some d => Some (mean (map (fun x => x * x) d))
  end.

(** The notebook's global [model] and the global generator; [updates]
    counts the calls of [apply_gradients] on the model's weights. *)
Record Session := {
  weights : W;
  rng : G;
  updates : nat
}.

(** The scalar recorded on the tape of [train_step], as a function of the
    weights: [tf.reduce_mean(loss_func(model(x, training=True)[:, 0], truth))];
    the mean of a scalar is that scalar. *)
Definition recorded_loss (x : array2) (truth : array) (w : W)
  : option (option R) :=
  match column0 (model_call w true x) with
  | None => None
  | Some pred => loss_func pred truth
  end.

(** The model's output column [model(x, training=t)[:, 0]] when every
    output row has its entry. *)
Definition output_column (w : W) (training : bool) (x : array2) : array :=
  map (fun row => hd 0 row) (model_call w training x).

(** [train_step(x, truth, optimizer)] *)
Definition train_step (x : array2) (truth : array) (optimizer : Opt) (s : Session)
  : option (option R * Opt * Session) :=
  match recorded_loss x truth (weights s) with
  | None => None
  | Some loss =>
      let gradients :=
        tape_gradient
          (fun w => match recorded_loss x truth w with
                    | Some l => l
                    | None => None
                    end) (weights s) in
      let '(optimizer', w') := apply_gradients optimizer gradients (weights s) in
      Some (loss, optimizer',
            {| weights := w'; rng := rng s; updates := S (updates s) |})
  end.

(** [loss_func] on targets that need not be finite numbers (the scaled
    masses are not when [target_sigma] is zero).  A target that is [inf] or
    [nan] makes its squared difference, and with it the mean, [inf] or
    [nan], whatever the predictions; the shapes must broadcast all the
    same. *)
Definition loss_func_float (pred : array) (truth : list (option R))
  : option (option R) :=
  match finite_entries truth with
  | Some t => loss_func pred t
  | None =>
      if broadcastable (length pred) (length truth) then Some None else None
  end.

(** The scalar on the tape for such targets. *)
Definition recorded_loss_float (x : array2) (truth : list (option R)) (w : W)
  : option (option R) :=
  match column0 (model_call w true x) with
  | None => None
  | Some pred => loss_func_float pred truth
  end.

(** [train_step(x, truth, optimizer)] for such targets: the same steps; on
    finite targets it is [train_step]. *)
Definition train_step_float (x : array2) (truth : list (option R))
    (optimizer : Opt) (s : Session)
  : option (option R * Opt * Session) :=
  match recorded_loss_float x truth (weights s) with
  | None => None
  | Some loss =>
      let gradients :=
        tape_gradient
          (fun w => match recorded_loss_float x truth w with
                    | Some l => l
                    | None => None
                    end) (weights s) in
      let '(optimizer', w') := apply_gradients optimizer gradients (weights s) in
      Some (loss, optimizer',
            {| weights := w'; rng := rng s; updates := S (updates s) |})
  end.

(** The [for] loop of [train_loop]: [k] train steps on fresh batches of 64
    with the scaled masses, finite or not (the progress bar shows the loss
    and changes no state). *)
Fixpoint training_iterations (fuel k : nat) (optimizer : Opt) (s : Session)
  : option (Opt * Session) :=
  match k with
  | O => Some (optimizer, s)
  | S k' =>
      match get_batch fuel 64 (rng s) with
      | None => None
      | Some (vec, truth, g') =>
          let s1 := {| weights := weights s; rng := g'; updates := updates s |} in
          match train_step_float vec
                  (map (fun t => scale_target t false) truth) optimizer s1 with
          | None => None
          | Some (_, optimizer', s2) => training_iterations fuel k' optimizer' s2
          end
      end
  end.

(** What the test after the training produces: the two returned arrays and
    the number printed as [predictions with error < 10%] (before it is
    formatted). *)
Record Evaluation := {
  pred : array;
  truth : array;
  rel_err : list (option R);
  printed : option R
}.

(** [abs(rel_err) < c] *)
Definition abs_lt (a : list (option R)) (c : R) : list bool :=
  map (fun x => ltb_nan (option_map Rabs x) c) a.

(** The size of the test batch. *)
#[warnings="-abstract-large-number"] Definition test_size : nat := 20000.

(** The test of [train_loop], from [vec, truth = get_batch(n=20000)] to the
    printed metric (the plots draw [rel_err] and change no state), on a
    model that returns finite numbers. *)
Definition evaluation (fuel : nat) (s : Session) : option (Evaluation * Session) :=
  match get_batch fuel test_size (rng s) with
  | None => None
  | Some (vec, truth, g') =>
      match column0 (model_call (weights s) false vec) with
      | None => None
      | Some pred_raw =>
          match elementwise (fun t => scale_target t true) pred_raw with
          | None => None
          | Some pred =>
              match broadcast Rminus pred truth with
              | None => None
              | Some diff =>
                  match broadcast divide diff truth with
                  | None => None
                  | Some rel_err =>
                      let frac := mean_bool (abs_lt rel_err 0.10) in
                      Some ({| pred := pred; truth := truth;
                               rel_err := rel_err;
                               printed := option_map (Rmult 100) frac |},
                            {| weights := weights s; rng := g';
                               updates := updates s |})
                  end
              end
          end
      end
  end.

(** [model(vec, training=False)[:, 0]] as floats: [nan] for every sample
    when the model does not return finite numbers. *)
Definition model_outputs (w : W) (x : array2) : option (list (option R)) :=
  if finite_outputs w
  then option_map (map Some) (column0 (model_call w false x))
  else Some (map (fun _ => None) x).

(** These outputs when every output row has its entry. *)
Definition test_outputs (w : W) (x : array2) : list (option R) :=
  if finite_outputs w then map Some (output_column w false x)
  else repeat None (length x).

(** [scale_target(pred_raw, rescale=True)], [pred - truth] and
    [(pred - truth) / truth] on an entry that may be [nan]. *)
Definition rescale_float (o : option R) : option R :=
  match o with Some v => scale_target v true | None => None end.
Definition minus_float (p : option R) (t : R) : option R :=
  option_map (fun v => v - t) p.
Definition divide_float (d : option R) (t : R) : option R :=
  match d with Some v => divide v t | None => None end.

(** What the test produces when the predictions need not be finite
    numbers. *)
Record EvaluationFloat := {
  pred_float : list (option R);
  truth_float : array;
  rel_err_float : list (option R);
  printed_float : option R
}.

(** The test of [train_loop] on a model that need not return finite
    numbers: the same steps as [evaluation], on floats. *)
Definition evaluation_float (fuel : nat) (s : Session)
  : option (EvaluationFloat * Session) :=
  match get_batch fuel test_size (rng s) with
  | None => None
  | Some (vec, truth, g') =>
      match model_outputs (weights s) vec with
      | None => None
      | Some pred_raw =>
          let pred := map rescale_float pred_raw in
          match broadcast_with minus_float pred truth with
          | None => None
          | Some diff =>
              match broadcast_with divide_float diff truth with
              | None => None
              | Some rel_err =>
                  let frac := mean_bool (abs_lt rel_err 0.10) in
                  Some ({| pred_float := pred; truth_float := truth;
                           rel_err_float := rel_err;
                           printed_float := option_map (Rmult 100) frac |},
                        {| weights := weights s; rng := g';
                           updates := updates s |})
              end
          end
      end
  end.

(** [train_loop(n_iterations, learning_rate)] *)
Definition train_loop (fuel n_iterations : nat) (learning_rate : R) (s : Session)
  : option (EvaluationFloat * Session) :=
  let optimizer := Adam learning_rate in
  match training_iterations fuel n_iterations optimizer s with
  | None => None
  | Some (_, s1) => evaluation_float fuel s1
  end.

End Training.

(** *** The metrics in the words of the specification *)

(** The mean over the batch of the squared differences between prediction
    and target, sample by sample; not a number on an empty batch. *)
Definition mean_squared_error (pred truth : array) : option R :=
  match length pred with
  | O => None
  | S _ =>
      Some (fold_right Rplus 0
              (map (fun i => (nth i pred 0 - nth i truth 0) ^ 2)
                   (seq 0 (length pred)))
            / INR (length pred))
  end.

(** Whether the relative error [(prediction - truth) / truth] of a sample
    has absolute value strictly below [tol]; a sample whose truth is zero
    has no relative error. *)
Definition relative_error_below (tol prediction truth : R) : bool :=
  if Req_dec_T truth 0 then false
  else ltb (Rabs ((prediction - truth) / truth)) tol.

(** The fraction of the samples of a batch with relative error below [tol]. *)
Definition fraction_below (tol : R) (pred truth : array) : R :=
  INR (length (filter (fun s => relative_error_below tol (fst s) (snd s))
                      (combine pred truth)))
  / INR (length pred).

(** Whether a prediction lies strictly between 90% and 110% of the truth. *)
Definition within_ten_percent (prediction truth : R) : bool :=
  if Rlt_dec (0.9 * truth) prediction
  then (if Rlt_dec prediction (1.1 * truth) then true else false)
  else false.

End MassRegression.

(** ** The sampler in float32 arithmetic

    [get_data] casts its draws to float32 and computes with float32 arrays.
    Here the rounding to float32 and the float32 library functions are an
    interface: a rounding that fixes the float32 numbers and keeps the
    order, and five functions of which nothing is assumed.  The rounding
    is that of finite results: a result beyond the largest float32 number
    is [inf] in the code and is not represented.  The doubles the
    generator returns are taken as they are.  The sampler of
    [MassRegression] is this one in the arithmetic [Exact], where nothing
    is rounded. *)

Module Float32.

Import Numpy MassRegression.

(** The finite float32 numbers: [k * 2^e] with a significand of 24 bits
    and an exponent from that of the least subnormal number to that of the
    largest number. *)
Definition representable (x : R) : Prop :=
  exists k e : Z,
    x = IZR k * powerRZ 2 e /\ (Z.abs k < 2 ^ 24)%Z /\ (-149 <= e <= 104)%Z.

(** The least positive and the largest finite float32 number. *)
Definition least_positive : R := / IZR (2 ^ 149).
Definition largest : R := IZR ((2 ^ 24 - 1) * 2 ^ 104).

Class Arithmetic := {
  (** the float32 a real result is rounded to *)
  round32 : R -> R;
  (** [x ** 0.5], [np.exp], [np.arctan], [np.cos], [np.sin] on float32 *)
  sqrt32 : R -> R;
  exp32 : R -> R;
  arctan32 : R -> R;
  cos32 : R -> R;
  sin32 : R -> R;
  round32_exact : forall x, representable x -> round32 x = x;
  round32_monotone : forall x y, x <= y -> round32 x <= round32 y
}.

(** The arithmetic without rounding.  Not registered as the arithmetic. *)
Definition Exact : Arithmetic.
Proof.
  refine {| round32 := fun x => x; sqrt32 := sqrt; exp32 := exp;
            arctan32 := atan; cos32 := cos; sin32 := sin |}.
  - intros x _. reflexivity.
  - intros x y Hle. exact Hle.
Defined.

(** What IEEE binary32 arithmetic and the float32 library give at the
    points met below: results of magnitude at most [2^-150] are rounded to
    zero; [exp(-0.0)] is 1; [arctan(1)] is [13176795 / 2^24], the float32
    nearest [pi/4]; the cosine of twice that number lies between
    [-4.4e-08] and [-4.3e-08]; the cosine of 0 is 1. *)
Record Binary32Table (A : Arithmetic) : Prop := {
  underflow : forall x, Rabs x <= / IZR (2 ^ 150) -> round32 x = 0;
  exp32_zero : exp32 (- 0) = 1;
  arctan32_one : arctan32 1 = 13176795 / 16777216;
  cos32_near_half_pi :
    - (44 / 1000000000) <= cos32 (13176795 / 8388608) <= - (43 / 1000000000);
  cos32_zero : cos32 0 = 1
}.

Section Sampler.
Context {G : Type} `{RandomState G} {A : Arithmetic}.

(** Product and sum of two float32 numbers. *)
Definition mul32 (x y : R) : R := round32 (x * y).
Definition add32 (x y : R) : R := round32 (x + y).

(** [a.astype(np.float32)], and the cast of values assigned into a float32
    array. *)
Definition astype_float32 (a : array) : array := map round32 a.

(** The polar angle of a sample of pseudorapidity 0:
    [2.0 * np.arctan(np.exp(-0.0))]. *)
Definition theta0 : R := mul32 2 (arctan32 (exp32 (- 0))).

(** The [while] loop of [get_data]; the values drawn are stored in the
    float32 array [eta]. *)
Fixpoint resample_loop (fuel : nat) (eta : array) (g : G) (iterations : nat)
  : option (array * G * nat) :=
  if gtb_nan (mean_bool (abs_gt eta 2.5)) 0.05 then
    match fuel with
    | O => None
    | S fuel' =>
        let mask := abs_gt eta 2.5 in
        let '(values, g1) := Random.normal 0 2.5 (count_true mask) g in
        resample_loop fuel' (assign_masked eta mask (astype_float32 values))
                      g1 (S iterations)
    end
  else Some (eta, g, iterations).

(** The body of [get_data(n, min_p, max_p, min_m, max_m, cartesian)]. *)
Definition get_data_body (fuel n : nat) (min_p max_p min_m max_m : R)
    (cartesian : bool) (g : G) : option (@Locals G) :=
  (* uniform momentum *)
  let '(p0, g1) := Random.uniform min_p max_p n g in
  let p := astype_float32 p0 in
  (* uniform masses *)
  let '(m0, g2) := Random.uniform min_m max_m n g1 in
  let m := astype_float32 m0 in
  (* isotrop azimuth *)
  let '(phi0, g3) := Random.uniform (- PI) PI n g2 in
  let phi := astype_float32 phi0 in
  (* centralized pseudo-rapidity with detector-like coverage *)
  match resample_loop fuel (zeros_like p) g3 0 with
  | None => None
  | Some (eta0, g4, k) =>
      let eta := astype_float32 eta0 in
      (* derive quantities *)
      let e := map2 (fun a b => sqrt32 (add32 (mul32 a a) (mul32 b b))) p m in
      let theta := map (fun x => mul32 2 (arctan32 (exp32 (- x)))) eta in
      let pt := map2 (fun a b => mul32 a (cos32 b)) p theta in
      let vec :=
        if cartesian
        then stack4 e (map2 (fun a b => mul32 a (cos32 b)) pt phi)
                      (map2 (fun a b => mul32 a (sin32 b)) pt phi)
                      (map2 (fun a b => mul32 a (sin32 b)) p theta)
        else stack4 e pt eta phi in
      Some {| MassRegression.p := p; MassRegression.m := m;
              MassRegression.phi := phi; MassRegression.eta := eta;
              MassRegression.e := e; MassRegression.theta := theta;
              MassRegression.pt := pt; MassRegression.vec := vec;
              MassRegression.iterations := k;
              MassRegression.rng_after := g4 |}
  end.

(** [get_data]: the stacked batch and the masses (and the generator). *)
Definition get_data (fuel n : nat) (min_p max_p min_m max_m : R)
    (cartesian : bool) (g : G) : option (array2 * array * G) :=
  match get_data_body fuel n min_p max_p min_m max_m cartesian g with
  | None => None
  | Some l => Some (vec l, m l, rng_after l)
  end.

(** The three float32 arrays a call casts its uniform draws to. *)
Definition cast_p (n : nat) (min_p max_p : R) (g : G) : array :=
  astype_float32 (fst (drawn_p n min_p max_p g)).
Definition cast_m (n : nat) (min_p max_p min_m max_m : R) (g : G) : array :=
  astype_float32 (fst (drawn_m n min_p max_p min_m max_m g)).
Definition cast_phi (n : nat) (min_p max_p min_m max_m : R) (g : G) : array :=
  astype_float32 (fst (drawn_phi n min_p max_p min_m max_m g)).

(** The energy of a sample, and its row in each basis when its
    pseudorapidity is 0. *)
Definition energy (q ms : R) : R := sqrt32 (add32 (mul32 q q) (mul32 ms ms)).
Definition transverse (q : R) : R := mul32 q (cos32 theta0).
Definition cartesian_row (q ms az : R) : list R :=
  [energy q ms; mul32 (transverse q) (cos32 az);
   mul32 (transverse q) (sin32 az); mul32 q (sin32 theta0)].
Definition cylindrical_row (q ms az : R) : list R :=
  [energy q ms; transverse q; 0; az].

(** One row per sample from the three columns drawn. *)
Fixpoint rows_of (row : R -> R -> R -> list R) (p m phi : array) : array2 :=
  match p, m, phi with
  | q :: p', ms :: m', az :: phi' => row q ms az :: rows_of row p' m' phi'
  | _, _, _ => []
  end.

End Sampler.

End Float32.

(** ** The custom layer of the Keras notebook *)

Module KerasApi.

Import Numpy.

(** A [tf.keras.layers.Layer] object of class [FeatureScaling]: the two
    members its constructor stores, and of the base class the [trainable]
    flag, the [built] flag and the list of variables the layer has created
    (each a named array). *)
Record FeatureScaling := {
  means : array;
  stddevs : array;
  trainable : bool;
  built : bool;
  variables : list (nat * array)
}.

(** [FeatureScaling(means, stddevs)]: the base constructor is called with
    [trainable=False], then the arguments are stored. *)
Definition init (means stddevs : array) : FeatureScaling :=
  {| means := means; stddevs := stddevs; trainable := false; built := false;
     variables := [] |}.

(** [layer.trainable_variables] *)
Definition trainable_variables (l : FeatureScaling) : list (nat * array) :=
  if trainable l then variables l else [].

(** [get_config] *)
Definition get_config (l : FeatureScaling) : array * array :=
  (means l, stddevs l).

(** [compute_output_shape]: [(input_shape[0], input_shape[1])]. *)
Definition compute_output_shape (input_shape : list nat) : option (nat * nat) :=
  match input_shape with
  | n :: d :: _ => Some (n, d)
  | _ => None
  end.

(** [build]: nothing to do. *)
Definition build (l : FeatureScaling) (input_shape : list nat) : FeatureScaling := l.

(** One row of [(x - self.means) / self.stddevs]; each of the two
    operations broadcasts. *)
Definition call_row (l : FeatureScaling) (row : array) : option (list (option R)) :=
  match broadcast Rminus row (means l) with
  | None => None
  | Some centered => broadcast divide centered (stddevs l)
  end.

(** [call(x)] on a batch of rows: [(x - self.means) / self.stddevs]. *)
Fixpoint call (l : FeatureScaling) (x : array2) : option (list (list (option R))) :=
  match x with
  | [] => Some []
  | row :: rest =>
      match call_row l row, call l rest with
      | Some r, Some rs => Some (r :: rs)
      | _, _ => None
      end
  end.

(** Applying the layer object, [layer(x)]: the base class builds the layer
    on its first use, then runs [call]. *)
Definition apply (l : FeatureScaling) (x : array2)
  : option (list (list (option R))) * FeatureScaling :=
  let l1 := if built l then l else build l [length x; length (hd [] x)] in
  let l2 := {| means := means l1; stddevs := stddevs l1;
               trainable := trainable l1; built := true;
               variables := variables l1 |} in
  (call l2 x, l2).

(** *** The statistics the notebook passes to the layer *)

(** Feature [j] of a batch: column [j]. *)
Definition column (j : nat) (x : array2) : array :=
  map (fun row => nth j row 0) x.

(** The number of features of a batch with at least one row. *)
Definition width (x : array2) : nat := length (hd [] x).

(** [np.mean(x, axis=0)]: the mean of each feature across the batch; on a
    batch without rows the means are not numbers. *)
Definition mean_axis0 (x : array2) : option array :=
  match x with
  | [] => None
  | _ => Some (map (fun j => sum (column j x) / INR (length x))
                   (seq 0 (width x)))
  end.

(** [np.std(x, axis=0)]: for each feature the square root of the mean
    squared deviation from the feature's mean. *)
Definition std_axis0 (x : array2) : option array :=
  match x with
  | [] => None
  | _ =>
      Some (map (fun j =>
                   let mu := sum (column j x) / INR (length x) in
                   sqrt (sum (map (fun v => (v - mu) * (v - mu)) (column j x))
                         / INR (length x)))
                (seq 0 (width x)))
  end.

End KerasApi.

(** ** The model definition of the mass regression notebook *)

Module ModelDefinition.

Import String.
Open Scope string_scope.

(** The layers [get_model] uses, with the arguments it passes. *)
Inductive Layer :=
| Input (shape : nat)
| BatchNormalization (axis : nat)
| Dense (units : nat) (activation : option string) (kernel_initializer : string)
| Activation (activation : string).

(** One round of the [for] loop of [get_model], applied to the chain [a]
    built so far (the last layer of the list is the one applied last). *)
Definition stack_one (n_units : nat) (activation kernel_initializer : string)
    (batch_norm : bool) (a : list Layer) : list Layer :=
  (* dense layer *)
  let a := (a ++ [Dense n_units None kernel_initializer])%list in
  (* batch norm before activation, except for relu *)
  let a := if (batch_norm && negb (activation =? "relu"))%bool
           then (a ++ [BatchNormalization 1])%list else a in
  (* activation *)
  let a := (a ++ [Activation activation])%list in
  (* batch norm after activation for relu *)
  let a := if (batch_norm && (activation =? "relu"))%bool
           then (a ++ [BatchNormalization 1])%list else a in
  a.

(** [for _ in range(n_layers)] *)
Fixpoint stack_layers (n_layers n_units : nat)
    (activation kernel_initializer : string) (batch_norm : bool)
    (a : list Layer) : list Layer :=
  match n_layers with
  | O => a
  | S k =>
      stack_layers k n_units activation kernel_initializer batch_norm
        (stack_one n_units activation kernel_initializer batch_norm a)
  end.

(** [get_model(n_inputs, n_layers, n_units, activation, kernel_initializer,
    batch_norm_first, batch_norm)]: the chain of layers from the input to
    the output of the returned model. *)
Definition get_model (n_inputs n_layers n_units : nat)
    (activation kernel_initializer : string)
    (batch_norm_first batch_norm : bool) : list Layer :=
  let a := [Input n_inputs] in
  (* standard batch norm for input scaling *)
  let a := if batch_norm_first
           then (a ++ [BatchNormalization 1])%list else a in
  (* no batch norm when selu is chosen *)
  let batch_norm := if activation =? "selu" then false else batch_norm in
  (* stack layers *)
  let a := stack_layers n_layers n_units activation kernel_initializer
             batch_norm a in
  (a ++ [Dense 1 (Some "linear") "glorot_normal"])%list.

(** The defaults of the two string arguments. *)
Definition default_activation : string := "linear".
Definition default_kernel_initializer : string := "glorot_uniform".

Definition is_dense (l : Layer) : bool :=
  match l with Dense _ _ _ => true | _ => false end.
Definition is_activation (l : Layer) : bool :=
  match l with Activation _ => true | _ => false end.
Definition is_batch_norm (l : Layer) : bool :=
  match l with BatchNormalization _ => true | _ => false end.

End ModelDefinition.

(** ** The gradients notebook *)

Module Gradients.

(** [tf.gradients(f, [x, y, z])] inside a [tf.function] of three scalar
    inputs: the list of the partial derivatives of the node [f], taken as a
    function of the inputs, at the values the function is called with.
    The library is an interface; its law says that where the three
    partial derivatives exist they are what it returns. *)
Class AutoDiff := {
  gradients : (R -> R -> R -> R) -> R -> R -> R -> list R;
  gradients_partial : forall (f : R -> R -> R -> R) (x y z dx dy dz : R),
    derivable_pt_lim (fun t => f t y z) x dx ->
    derivable_pt_lim (fun t => f x t z) y dy ->
    derivable_pt_lim (fun t => f x y t) z dz ->
    gradients f x y z = [dx; dy; dz]
}.

(** The node [f] of [func] as a function of the inputs:
    [q = x + y; f = q * z]. *)
Definition func_node (x y z : R) : R :=
  let q := x + y in
  let f := q * z in
  f.

(** [func(x, y, z)]: [return f, tf.gradients(f, [x, y, z])]. *)
Definition func `{AutoDiff} (x y z : R) : R * list R :=
  (func_node x y z, gradients func_node x y z).

(** A derivative of [g] at [a], chosen among the limits of its difference
    quotient when there is one. *)
Definition chosen_derivative (g : R -> R) (a : R) : R :=
  epsilon (inhabits 0) (fun d => derivable_pt_lim g a d).

End Gradients.

(** ** Instances for concrete runs *)

Module Concrete.

Import Numpy MassRegression.

(** A generator whose every double is [1/2] and whose every normal deviate
    is [2]; the state counts the draws of each kind. *)
#[export] Instance ConstGen : RandomState (nat * nat).
Proof.
  refine {| random_sample := fun g => (1 / 2, (S (fst g), snd g));
            standard_normal := fun g => (2, (fst g, S (snd g))) |}.
  intros g; simpl; lra.
Defined.

(** A model with one weight [w] that returns [w * e] for a four-vector of
    energy [e]; an optimizer that counts its steps and lowers the weight by
    the learning rate; a gradient that is not used by that optimizer. *)
#[export] Instance ScaleModel : Framework R (R * nat) unit.
Proof.
  refine {| model_call := fun w _ x => map (fun row => [w * hd 0 row]) x;
            Adam := fun lr => (lr, O);
            tape_gradient := fun _ _ => tt;
            apply_gradients := fun o _ w => ((fst o, S (snd o)), w - fst o) |}.
  intros w t x; split.
  - apply length_map.
  - apply Forall_forall; intros row Hin.
    apply in_map_iff in Hin; destruct Hin as [r [<- _]]; reflexivity.
Defined.

#[export] Instance ScaleModelOutputs : FiniteOutputs R :=
  {| finite_outputs := fun _ => true |}.

(** The same model with a weight that can be [nan] ([None]): the gradient
    is finite when the recorded loss is, and an update with a gradient
    that is not finite leaves [nan] in the weight.  Not registered as the
    framework. *)
Definition NanModel : Framework (option R) (R * nat) (option R).
Proof.
  refine {| model_call := fun w _ x =>
              map (fun row => [match w with
                               | Some v => v * hd 0 row
                               | None => 0
                               end]) x;
            Adam := fun lr => (lr, O);
            tape_gradient := fun f w => f w;
            apply_gradients := fun o grad w =>
              ((fst o, S (snd o)),
               match grad, w with
               | Some _, Some v => Some (v - fst o)
               | _, _ => None
               end) |}.
  intros w t x; split.
  - apply length_map.
  - apply Forall_forall; intros row Hin.
    apply in_map_iff in Hin; destruct Hin as [r [<- _]]; reflexivity.
Defined.

Definition NanModelOutputs : FiniteOutputs (option R) :=
  {| finite_outputs := fun w => match w with Some _ => true | None => false end |}.

(** A generator whose every double is [1/2] and whose every normal deviate
    is [1/2], so that [np.random.normal(0, 2.5, k)] returns values inside
    the coverage. *)
#[export] Instance CentralGen : RandomState unit.
Proof.
  refine {| random_sample := fun g => (1 / 2, g);
            standard_normal := fun g => (1 / 2, g) |}.
  intros g; simpl; lra.
Defined.

(** The doubles of the constant generator with other normal deviates
    (all 9); not registered as the generator of its state type. *)
Definition ConstGenOtherNormals : RandomState (nat * nat).
Proof.
  refine {| random_sample := fun g => (1 / 2, (S (fst g), snd g));
            standard_normal := fun g => (9, (fst g, S (snd g))) |}.
  intros g; simpl; lra.
Defined.

(** The parts of a float32 arithmetic that meets the table of
    [Float32.Binary32Table]: results of magnitude at most [2^-150] become
    zero and nothing else is rounded; the library functions are the real
    ones but for the two values of the table. *)
Definition flush (x : R) : R :=
  if Rle_dec (Rabs x) (/ IZR (2 ^ 150)) then 0 else x.

Definition arctan_table (x : R) : R :=
  if Req_dec_T x 1 then 13176795 / 16777216 else atan x.

Definition cos_table (x : R) : R :=
  if Req_dec_T x (13176795 / 8388608) then - (437 / 10000000000) else cos x.

(** That arithmetic: every float32 number other than 0 has magnitude at
    least [2^-149], so the rounding fixes the float32 numbers, and it
    keeps the order.  Not registered as the arithmetic. *)
Definition Flushed : Float32.Arithmetic.
Proof.
  refine {| Float32.round32 := flush; Float32.sqrt32 := sqrt;
            Float32.exp32 := exp; Float32.arctan32 := arctan_table;
            Float32.cos32 := cos_table; Float32.sin32 := sin |}.
  - intros x (k & e & -> & Hk & He). unfold flush.
    destruct (Rle_dec _ _) as [Hle|]; [|reflexivity].
    destruct (Z.eq_dec k 0) as [->|Hk0]; [lra|]. exfalso.
    rewrite Rabs_mult, Rabs_Zabs in Hle.
    rewrite (Rabs_pos_eq (powerRZ 2 e)) in Hle by (apply powerRZ_le; lra).
    assert (H1 : 1 <= IZR (Z.abs k)) by (apply IZR_le; lia).
    assert (H2 : / IZR (2 ^ 149) <= powerRZ 2 e).
    { replace e with (-149 + (e + 149))%Z by lia.
      rewrite powerRZ_add by lra.
      assert (Hlow : powerRZ 2 (-149) = / IZR (2 ^ 149)).
      { cbn [powerRZ]. f_equal. rewrite pow_IZR. f_equal. }
      rewrite Hlow.
      assert (Hup : 1 <= powerRZ 2 (e + 149)).
      { replace (e + 149)%Z with (Z.of_nat (Z.to_nat (e + 149))) by lia.
        rewrite <- pow_powerRZ. apply pow_R1_Rle. lra. }
      assert (Hpos : 0 < / IZR (2 ^ 149))
        by (apply Rinv_0_lt_compat, IZR_lt; reflexivity).
      nra. }
    assert (H3 : / IZR (2 ^ 150) < / IZR (2 ^ 149)).
    { apply Rinv_lt_contravar; [|apply IZR_lt; reflexivity].
      apply Rmult_lt_0_compat; apply IZR_lt; reflexivity. }
    assert (H4 : 0 < / IZR (2 ^ 149))
      by (apply Rinv_0_lt_compat, IZR_lt; reflexivity).
    nra.
  - intros x y Hle. unfold flush.
    assert (Hpos : 0 < / IZR (2 ^ 150))
      by (apply Rinv_0_lt_compat, IZR_lt; reflexivity).
    destruct (Rle_dec (Rabs x) _) as [Hx|Hx];
      destruct (Rle_dec (Rabs y) _) as [Hy|Hy];
      revert Hx Hy; unfold Rabs;
      destruct (Rcase_abs x); destruct (Rcase_abs y); intros; lra.
Defined.

(** An automatic differentiation that returns the derivatives. *)
#[export] Instance ExactDiff : Gradients.AutoDiff.
Proof.
  refine {| Gradients.gradients := fun f x y z =>
              [Gradients.chosen_derivative (fun t => f t y z) x;
               Gradients.chosen_derivative (fun t => f x t z) y;
               Gradients.chosen_derivative (fun t => f x y t) z] |}.
  intros f x y z dx dy dz Hx Hy Hz.
  unfold Gradients.chosen_derivative.
  f_equal; [|f_equal; [|f_equal]].
  - eapply uniqueness_limite; [|exact Hx].
    apply epsilon_spec. now exists dx.
  - eapply uniqueness_limite; [|exact Hy].
    apply epsilon_spec. now exists dy.
  - eapply uniqueness_limite; [|exact Hz].
    apply epsilon_spec. now exists dz.
Defined.

(** A batch of two samples with two features, the second one constant,
    with its per-feature means and standard deviations. *)
Definition small_batch : array2 := [[1; 7]; [3; 7]].
Definition small_batch_means : array :=
  match KerasApi.mean_axis0 small_batch with Some a => a | None => [] end.
Definition small_batch_stddevs : array :=
  match KerasApi.std_axis0 small_batch with Some a => a | None => [] end.

(** A fresh session on these two: weight 1, no draw made, no update done. *)
Definition session0 : Session (G := nat * nat) (W := R) :=
  {| weights := 1; rng := (0%nat, 0%nat); updates := 0 |}.

(** The same for the model whose weight can be [nan], and a mass range
    that is the single value 5. *)
Definition nan_session0 : Session (G := nat * nat) (W := option R) :=
  {| weights := Some 1; rng := (0%nat, 0%nat); updates := 0 |}.
Definition single_mass_spec : DataSpec :=
  {| min_p := 0; max_p := 200; min_m := 5; max_m := 5; cartesian := true |}.

End Concrete.

(** * Properties *)

Import Numpy MassRegression.

(** ** Arrays and draws *)

Section ArrayFacts.

Lemma map2_length {A B C} (f : A -> B -> C) (a : list A) (b : list B) :
  length a = length b -> length (map2 f a b) = length a.
Proof.
  intros Hl. unfold map2. rewrite length_map, length_combine, <- Hl.
  apply Nat.min_id.
Qed.

Lemma map2_length_n {A B C} (f : A -> B -> C) (a : list A) (b : list B) (n : nat) :
  length a = n -> length b = n -> length (map2 f a b) = n.
Proof. intros Ha Hb. rewrite map2_length; congruence. Qed.

Lemma map2_cons {A B C} (f : A -> B -> C) x a y b :
  map2 f (x :: a) (y :: b) = f x y :: map2 f a b.
Proof. reflexivity. Qed.

Lemma sum_repeat_zero (n : nat) : sum (repeat 0 n) = 0.
Proof. induction n as [|n IH]; simpl; [reflexivity | rewrite IH; lra]. Qed.

Lemma abs_gt_zeros (n : nat) (c : R) :
  0 <= c -> abs_gt (repeat 0 n) c = repeat false n.
Proof.
  intros Hc. induction n as [|n IH]; simpl; [reflexivity|].
  rewrite IH. f_equal. unfold gtb.
  destruct (Rgt_dec (Rabs 0) c) as [Hgt|]; [|reflexivity].
  rewrite Rabs_R0 in Hgt. lra.
Qed.

(** The sum of the 0/1 values of a mask is its number of [True] entries. *)
Lemma sum_indicator (mask : list bool) :
  sum (map (fun b : bool => if b then 1 else 0) mask) = INR (count_true mask).
Proof.
  unfold count_true.
  induction mask as [|b mask IH]; [reflexivity|].
  cbn [map sum fold_right filter]. fold (sum (map (fun b : bool => if b then 1 else 0) mask)).
  rewrite IH. destruct b.
  - cbn [length]. rewrite S_INR. lra.
  - lra.
Qed.

Lemma mean_bool_cons (b : bool) (mask : list bool) :
  mean_bool (b :: mask) =
  Some (INR (count_true (b :: mask)) / INR (length (b :: mask))).
Proof.
  unfold mean_bool. rewrite <- sum_indicator.
  cbn [map mean length]. rewrite length_map. reflexivity.
Qed.

Lemma count_true_repeat_false (n : nat) : count_true (repeat false n) = 0%nat.
Proof. induction n as [|n IH]; [reflexivity | exact IH]. Qed.

(** The loop condition [np.mean(mask) > 0.05] is false exactly when the
    [True] entries are at most 5% of the entries (an empty mask included). *)
Lemma mean_bool_le_count (mask : list bool) (c : R) :
  gtb_nan (mean_bool mask) c = false ->
  INR (count_true mask) <= c * INR (length mask).
Proof.
  destruct mask as [|b mask].
  - intros _. cbn. lra.
  - rewrite mean_bool_cons. cbn [gtb_nan]. unfold gtb.
    destruct (Rgt_dec _ c) as [|Hn]; [discriminate|]. intros _.
    assert (Hpos : 0 < INR (length (b :: mask))) by (apply lt_0_INR; cbn; lia).
    apply Rnot_gt_le in Hn.
    apply (Rmult_le_compat_r _ _ _ (Rlt_le _ _ Hpos)) in Hn.
    unfold Rdiv in Hn. rewrite Rmult_assoc, Rinv_l, Rmult_1_r in Hn; lra.
Qed.

Lemma mean_bool_all_false (n : nat) (c : R) :
  0 <= c -> gtb_nan (mean_bool (repeat false n)) c = false.
Proof.
  intros Hc. destruct n as [|n]; [reflexivity|].
  change (repeat false (S n)) with (false :: repeat false n).
  rewrite mean_bool_cons.
  change (false :: repeat false n) with (repeat false (S n)).
  rewrite count_true_repeat_false. cbn [gtb_nan INR]. unfold gtb, Rdiv.
  rewrite Rmult_0_l. destruct (Rgt_dec 0 c); [lra | reflexivity].
Qed.

Lemma stack4_length (n : nat) (c0 c1 c2 c3 : array) :
  length c0 = n -> length c1 = n -> length c2 = n -> length c3 = n ->
  length (stack4 c0 c1 c2 c3) = n /\
  Forall (fun row => length row = 4%nat) (stack4 c0 c1 c2 c3).
Proof.
  revert c0 c1 c2 c3.
  induction n as [|n IH]; intros [|x0 c0] [|x1 c1] [|x2 c2] [|x3 c3];
    cbn [length]; try discriminate; intros H0 H1 H2 H3.
  - split; [reflexivity | constructor].
  - injection H0 as H0; injection H1 as H1; injection H2 as H2; injection H3 as H3.
    destruct (IH c0 c1 c2 c3 H0 H1 H2 H3) as [Hl Hr].
    cbn [stack4 length]. split; [now rewrite Hl | now constructor].
Qed.

End ArrayFacts.

Section DrawFacts.
Context {G : Type} `{RandomState G}.

Lemma draws_length (draw : G -> R * G) (n : nat) (g : G) :
  length (fst (Random.draws draw n g)) = n.
Proof.
  revert g. induction n as [|n IH]; intros g; [reflexivity|].
  cbn [Random.draws]. destruct (draw g) as [x g1].
  specialize (IH g1). destruct (Random.draws draw n g1) as [xs g2].
  cbn in *. now rewrite IH.
Qed.

Lemma uniform_length (low high : R) (n : nat) (g : G) :
  length (fst (Random.uniform low high n g)) = n.
Proof. apply draws_length. Qed.

(** With ordered bounds every uniform draw lies between them. *)
Lemma uniform_range (low high : R) (n : nat) (g : G) :
  low <= high ->
  Forall (fun x => low <= x <= high) (fst (Random.uniform low high n g)).
Proof.
  intros Hb. unfold Random.uniform. revert g.
  induction n as [|n IH]; intros g; [constructor|].
  cbn [Random.draws].
  pose proof (random_sample_range g) as Hu.
  destruct (random_sample g) as [u g1]. cbn [fst] in Hu.
  specialize (IH g1).
  destruct (Random.draws _ n g1) as [xs g2]. cbn [fst] in *.
  constructor; [nra | exact IH].
Qed.

(** A range that is a single value gives that value at every draw. *)
Lemma uniform_point (c : R) (n : nat) (g : G) :
  fst (Random.uniform c c n g) = repeat c n.
Proof.
  unfold Random.uniform. revert g.
  induction n as [|n IH]; intros g; [reflexivity|].
  cbn [Random.draws]. destruct (random_sample g) as [u g1].
  specialize (IH g1). destruct (Random.draws _ n g1) as [xs g2].
  cbn [fst] in *. rewrite IH. cbn [repeat]. f_equal. ring.
Qed.

End DrawFacts.

(** ** The sampler *)

Section SamplerFacts.
Context {G : Type} `{RandomState G}.

(** On leaving the loop its condition is false, whatever array it started
    from. *)
Lemma resample_loop_exit (fuel : nat) (eta0 : array) (g : G) (k : nat)
    (eta1 : array) (g1 : G) (k1 : nat) :
  resample_loop fuel eta0 g k = Some (eta1, g1, k1) ->
  gtb_nan (mean_bool (abs_gt eta1 2.5)) 0.05 = false.
Proof.
  revert eta0 g k.
  induction fuel as [|fuel IH]; intros eta0 g k; cbn [resample_loop];
    destruct (gtb_nan (mean_bool (abs_gt eta0 2.5)) 0.05) eqn:Hc;
    try discriminate.
  - intros [= <- _ _]. exact Hc.
  - destruct (Random.normal 0 2.5 _ g) as [values g2]. apply IH.
  - intros [= <- _ _]. exact Hc.
Qed.

(** Started on an array of zeros the loop returns at once: the body does
    not run, the array and the generator are unchanged. *)
Lemma resample_loop_zeros (fuel n : nat) (g : G) (k : nat) :
  resample_loop fuel (repeat 0 n) g k = Some (repeat 0 n, g, k).
Proof.
  assert (Hc : gtb_nan (mean_bool (abs_gt (repeat 0 n) 2.5)) 0.05 = false).
  { rewrite abs_gt_zeros by lra. apply mean_bool_all_false; lra. }
  destruct fuel; cbn [resample_loop]; rewrite Hc; reflexivity.
Qed.

(** The locals of every call, in closed form. *)
Lemma get_data_body_eq (fuel n : nat) (min_p max_p min_m max_m : R)
    (cartesian : bool) (g : G) :
  let p := fst (drawn_p n min_p max_p g) in
  let m := fst (drawn_m n min_p max_p min_m max_m g) in
  let phi := fst (drawn_phi n min_p max_p min_m max_m g) in
  let eta := repeat 0 n in
  let e := map2 (fun a b => sqrt (a * a + b * b)) p m in
  let theta := map (fun x => 2 * atan (exp (- x))) eta in
  let pt := map2 (fun a b => a * cos b) p theta in
  get_data_body fuel n min_p max_p min_m max_m cartesian g =
  Some {| MassRegression.p := p; MassRegression.m := m;
          MassRegression.phi := phi; MassRegression.eta := eta;
          MassRegression.e := e; MassRegression.theta := theta;
          MassRegression.pt := pt;
          vec := if cartesian
                 then stack4 e (px_of pt phi) (py_of pt phi) (pz_of p theta)
                 else stack4 e pt eta phi;
          iterations := 0;
          rng_after := snd (drawn_phi n min_p max_p min_m max_m g) |}.
Proof.
  unfold drawn_phi, drawn_m, drawn_p, get_data_body.
  pose proof (uniform_length min_p max_p n g) as Hp.
  destruct (Random.uniform min_p max_p n g) as [p0 g1]. cbn [fst snd] in *.
  destruct (Random.uniform min_m max_m n g1) as [m0 g2]. cbn [fst snd].
  destruct (Random.uniform (- PI) PI n g2) as [phi0 g3]. cbn [fst snd].
  unfold zeros_like, astype_float32. rewrite Hp, resample_loop_zeros.
  reflexivity.
Qed.

Lemma theta_zeros (n : nat) :
  map (fun x => 2 * atan (exp (- x))) (repeat 0 n) = repeat (PI / 2) n.
Proof.
  induction n as [|n IH]; [reflexivity|].
  cbn [repeat map]. rewrite IH. f_equal.
  rewrite Ropp_0, exp_0, atan_1. lra.
Qed.

Lemma times_cos_half_pi (q : array) (n : nat) :
  length q = n -> map2 (fun a b => a * cos b) q (repeat (PI / 2) n) = repeat 0 n.
Proof.
  revert q. induction n as [|n IH]; intros [|x q]; cbn [length]; try discriminate.
  - reflexivity.
  - intros [= Hl]. cbn [repeat]. rewrite map2_cons, IH by exact Hl.
    rewrite cos_PI2. f_equal. lra.
Qed.

Lemma times_sin_half_pi (q : array) (n : nat) :
  length q = n -> map2 (fun a b => a * sin b) q (repeat (PI / 2) n) = q.
Proof.
  revert q. induction n as [|n IH]; intros [|x q]; cbn [length]; try discriminate.
  - reflexivity.
  - intros [= Hl]. cbn [repeat]. rewrite map2_cons, IH by exact Hl.
    rewrite sin_PI2. f_equal. lra.
Qed.

Lemma zeros_times (f : R -> R) (n : nat) (q : array) :
  length q = n -> map2 (fun a b => a * f b) (repeat 0 n) q = repeat 0 n.
Proof.
  revert q. induction n as [|n IH]; intros [|x q]; cbn [length]; try discriminate.
  - reflexivity.
  - intros [= Hl]. cbn [repeat]. rewrite map2_cons, IH by exact Hl.
    f_equal. lra.
Qed.

Lemma stack4_rows (c0 c3 : array) (n : nat) :
  length c0 = n -> length c3 = n ->
  Forall2 (fun row q => exists en, row = [en; 0; 0; q])
          (stack4 c0 (repeat 0 n) (repeat 0 n) c3) c3.
Proof.
  revert c0 c3. induction n as [|n IH]; intros [|x0 c0] [|x3 c3];
    cbn [length]; try discriminate; intros H0 H3.
  - constructor.
  - injection H0 as H0; injection H3 as H3.
    cbn [repeat stack4]. constructor; [now exists x0 | now apply IH].
Qed.

(** Every call returns, and returns the batch of its uniform draws. *)
Lemma get_data_eq (fuel n : nat) (min_p max_p min_m max_m : R)
    (cartesian : bool) (g : G) :
  get_data fuel n min_p max_p min_m max_m cartesian g =
  Some (drawn_batch n min_p max_p min_m max_m cartesian g,
        fst (drawn_m n min_p max_p min_m max_m g),
        snd (drawn_phi n min_p max_p min_m max_m g)).
Proof.
  unfold get_data.
  rewrite (get_data_body_eq fuel n min_p max_p min_m max_m cartesian g).
  reflexivity.
Qed.

Lemma drawn_batch_shape (n : nat) (min_p max_p min_m max_m : R)
    (cartesian : bool) (g : G) :
  length (drawn_batch n min_p max_p min_m max_m cartesian g) = n /\
  Forall (fun row => length row = 4%nat)
         (drawn_batch n min_p max_p min_m max_m cartesian g) /\
  length (fst (drawn_m n min_p max_p min_m max_m g)) = n.
Proof.
  assert (Hp : length (fst (drawn_p n min_p max_p g)) = n)
    by apply uniform_length.
  assert (Hm : length (fst (drawn_m n min_p max_p min_m max_m g)) = n)
    by apply uniform_length.
  assert (Hphi : length (fst (drawn_phi n min_p max_p min_m max_m g)) = n)
    by apply uniform_length.
  assert (Hz : length (repeat 0 n) = n) by apply repeat_length.
  assert (Hth : length (map (fun x => 2 * atan (exp (- x))) (repeat 0 n)) = n)
    by (rewrite length_map; exact Hz).
  assert (Hshape : forall c0 c1 c2 c3 : array,
             length c0 = n -> length c1 = n -> length c2 = n -> length c3 = n ->
             length (stack4 c0 c1 c2 c3) = n /\
             Forall (fun row => length row = 4%nat) (stack4 c0 c1 c2 c3) /\
             length (fst (drawn_m n min_p max_p min_m max_m g)) = n).
  { intros c0 c1 c2 c3 L0 L1 L2 L3.
    destruct (stack4_length n c0 c1 c2 c3 L0 L1 L2 L3) as [Hl Hr]. auto. }
  unfold drawn_batch.
  destruct cartesian; apply Hshape; unfold px_of, py_of, pz_of;
    auto using map2_length_n.
Qed.

End SamplerFacts.

Section SamplerClaims.
Context {G : Type} `{RandomState G}.

(** Over the real numbers: the loop runs zero times, the polar angle is
    [pi/2], the transverse momentum is 0 and every Cartesian sample is
    [(e, 0, 0, p)] with [p] the drawn momentum magnitude. *)
Lemma get_data_real_arithmetic
    (fuel n : nat) (min_p max_p min_m max_m : R) (cartesian : bool) (g : G) :
  exists l : Locals,
    get_data_body fuel n min_p max_p min_m max_m cartesian g = Some l /\
    iterations l = 0%nat /\
    eta l = repeat 0 n /\
    theta l = repeat (PI / 2) n /\
    pt l = repeat 0 n /\
    p l = fst (drawn_p n min_p max_p g) /\
    rng_after l = snd (drawn_phi n min_p max_p min_m max_m g) /\
    get_data fuel n min_p max_p min_m max_m true g =
      Some (stack4 (e l) (repeat 0 n) (repeat 0 n) (p l), m l, rng_after l) /\
    Forall2 (fun row q => exists en, row = [en; 0; 0; q])
            (stack4 (e l) (repeat 0 n) (repeat 0 n) (p l)) (p l).
Proof.
  pose proof (get_data_body_eq fuel n min_p max_p min_m max_m cartesian g) as Hb.
  pose proof (get_data_body_eq fuel n min_p max_p min_m max_m true g) as Ht.
  cbv zeta in Hb, Ht.
  assert (Hp : length (fst (drawn_p n min_p max_p g)) = n)
    by apply uniform_length.
  assert (Hm : length (fst (drawn_m n min_p max_p min_m max_m g)) = n)
    by apply uniform_length.
  assert (Hphi : length (fst (drawn_phi n min_p max_p min_m max_m g)) = n)
    by apply uniform_length.
  eexists. split; [exact Hb|]. cbn [iterations eta theta pt p e m rng_after].
  rewrite theta_zeros, (times_cos_half_pi _ n Hp).
  repeat (split; [reflexivity|]).
  split.
  - unfold get_data. rewrite Ht. cbn [vec m rng_after].
    unfold px_of, py_of, pz_of.
    rewrite theta_zeros, (times_cos_half_pi _ n Hp),
      (times_sin_half_pi _ n Hp), !(zeros_times _ n _ Hphi).
    reflexivity.
  - apply stack4_rows; [|exact Hp].
    rewrite map2_length; congruence.
Qed.

(** C5.  For every batch of [get_data] the entries of the pseudorapidity
    array with absolute value above 2.5 are at most 5% of the batch: the
    loop condition is false on the array the call works with, so their
    number is at most [0.05 * n]; in the basis [(e, pt, eta, phi)] that
    array is the third column of the returned batch. *)
Theorem get_data_eta_outliers_at_most_5_percent
    (fuel n : nat) (min_p max_p min_m max_m : R) (cartesian : bool) (g : G) :
  exists l : Locals,
    get_data_body fuel n min_p max_p min_m max_m cartesian g = Some l /\
    get_data fuel n min_p max_p min_m max_m cartesian g =
      Some (vec l, m l, rng_after l) /\
    length (eta l) = n /\
    gtb_nan (mean_bool (abs_gt (eta l) 2.5)) 0.05 = false /\
    INR (count_true (abs_gt (eta l) 2.5)) <= 0.05 * INR n /\
    (if cartesian then True
     else map (fun row => nth 2 row 0) (vec l) = eta l).
Proof.
  unfold get_data, get_data_body.
  pose proof (uniform_length min_p max_p n g) as Hp.
  destruct (Random.uniform min_p max_p n g) as [p0 g1]. cbn [fst] in Hp.
  pose proof (uniform_length min_m max_m n g1) as Hm.
  destruct (Random.uniform min_m max_m n g1) as [m0 g2]. cbn [fst] in Hm.
  pose proof (uniform_length (- PI) PI n g2) as Hphi.
  destruct (Random.uniform (- PI) PI n g2) as [phi0 g3]. cbn [fst] in Hphi.
  unfold zeros_like, astype_float32. rewrite Hp.
  destruct (resample_loop fuel (repeat 0 n) g3 0) as [[[eta0 g4] k]|] eqn:Hloop;
    [|rewrite resample_loop_zeros in Hloop; discriminate].
  pose proof (resample_loop_exit _ _ _ _ _ _ _ Hloop) as Hexit.
  assert (Hlen : length eta0 = n).
  { rewrite resample_loop_zeros in Hloop. injection Hloop as <- _ _.
    apply repeat_length. }
  eexists. split; [reflexivity|]. cbn [vec m rng_after eta].
  split; [reflexivity|]. split; [exact Hlen|]. split; [exact Hexit|]. split.
  - apply mean_bool_le_count in Hexit.
    unfold abs_gt in Hexit at 2. rewrite length_map, Hlen in Hexit. exact Hexit.
  - destruct cartesian; [exact I|].
    assert (Hpt : length (map2 (fun a b => a * cos b) p0
                   (map (fun x => 2 * atan (exp (- x))) eta0)) = n).
    { rewrite map2_length; rewrite ?length_map; congruence. }
    assert (He : length (map2 (fun a b => sqrt (a * a + b * b)) p0 m0) = n).
    { rewrite map2_length; congruence. }
    revert He Hpt Hlen Hphi.
    generalize (map2 (fun a b => sqrt (a * a + b * b)) p0 m0) as c0.
    generalize (map2 (fun a b => a * cos b) p0
                  (map (fun x => 2 * atan (exp (- x))) eta0)) as c1.
    clear. revert eta0 phi0.
    induction n as [|n IH]; intros [|x2 c2] [|x3 c3] [|x1 c1] [|x0 c0];
      cbn [length]; try discriminate; intros H0 H1 H2 H3; [reflexivity|].
    cbn [stack4 map nth]. f_equal. apply IH; congruence.
Qed.

End SamplerClaims.

(** ** The sampler in float32 arithmetic *)

Section Float32Numbers.

Lemma representable_integer (k : Z) :
  (Z.abs k < 2 ^ 24)%Z -> Float32.representable (IZR k).
Proof.
  intros Hk. exists k, 0%Z. cbn [powerRZ].
  split; [lra|]. split; [exact Hk | lia].
Qed.

Lemma inverse_power_of_two (j : positive) :
  / IZR (2 ^ Z.pos j) = powerRZ 2 (Z.neg j).
Proof.
  cbn [powerRZ]. f_equal. rewrite pow_IZR. f_equal.
  now rewrite Znat.positive_nat_Z.
Qed.

Lemma representable_least_positive :
  Float32.representable Float32.least_positive.
Proof.
  exists 1%Z, (-149)%Z. unfold Float32.least_positive.
  rewrite (inverse_power_of_two 149).
  split; [lra|]. split; [reflexivity | lia].
Qed.

Lemma representable_largest : Float32.representable Float32.largest.
Proof.
  exists (2 ^ 24 - 1)%Z, 104%Z. unfold Float32.largest.
  split; [|split; [reflexivity | lia]].
  rewrite mult_IZR. f_equal.
  change 104%Z with (Z.of_nat 104). rewrite <- pow_powerRZ, pow_IZR.
  reflexivity.
Qed.

(** [13176795 / 2^23], the float32 nearest [pi/2]. *)
Lemma representable_half_pi : Float32.representable (13176795 / 8388608).
Proof.
  exists 13176795%Z, (-23)%Z. split; [|split; [reflexivity | lia]].
  rewrite <- (inverse_power_of_two 23).
  change (2 ^ 23)%Z with 8388608%Z. reflexivity.
Qed.

Lemma representable_opp_power (j : positive) :
  (Z.pos j <= 149)%Z -> Float32.representable (- / IZR (2 ^ Z.pos j)).
Proof.
  intros Hj. exists (-1)%Z, (Z.neg j). rewrite inverse_power_of_two.
  split; [lra|]. split; [reflexivity | lia].
Qed.

Lemma least_positive_pos : 0 < Float32.least_positive.
Proof. apply Rinv_0_lt_compat, IZR_lt. reflexivity. Qed.

Lemma least_positive_below_largest : Float32.least_positive <= Float32.largest.
Proof.
  unfold Float32.least_positive, Float32.largest.
  let v := eval vm_compute in (2 ^ 149)%Z in change (2 ^ 149)%Z with v.
  let v := eval vm_compute in ((2 ^ 24 - 1) * 2 ^ 104)%Z in
    change ((2 ^ 24 - 1) * 2 ^ 104)%Z with v.
  lra.
Qed.

End Float32Numbers.

Section Float32Facts.
Context {G : Type} `{RandomState G} {A : Float32.Arithmetic}.

Lemma round32_integer (k : Z) :
  (Z.abs k < 2 ^ 24)%Z -> Float32.round32 (IZR k) = IZR k.
Proof. intros Hk. apply Float32.round32_exact, representable_integer, Hk. Qed.

Lemma round32_zero : Float32.round32 0 = 0.
Proof. apply (round32_integer 0). reflexivity. Qed.

(** The cast keeps the order: a number between two bounds is cast to a
    float32 between the casts of the bounds. *)
Lemma round32_between (lo hi x : R) :
  lo <= x <= hi -> Float32.round32 lo <= Float32.round32 x <= Float32.round32 hi.
Proof. intros [Hl Hh]. split; now apply Float32.round32_monotone. Qed.

Lemma astype_float32_length (a : array) :
  length (Float32.astype_float32 a) = length a.
Proof. apply length_map. Qed.

Lemma astype_float32_zeros (n : nat) :
  Float32.astype_float32 (repeat 0 n) = repeat 0 n.
Proof.
  unfold Float32.astype_float32. rewrite map_repeat. now rewrite round32_zero.
Qed.

Lemma astype_float32_between (lo hi : R) (a : array) :
  Forall (fun x => lo <= x <= hi) a ->
  Forall (fun x => Float32.round32 lo <= x <= Float32.round32 hi)
         (Float32.astype_float32 a).
Proof.
  intros Hall. unfold Float32.astype_float32. apply Forall_map.
  eapply Forall_impl; [|exact Hall].
  intros x Hx. now apply round32_between.
Qed.

(** Started on an array of zeros the loop returns at once, in every
    arithmetic. *)
Lemma float32_resample_loop_zeros (fuel n : nat) (g : G) (k : nat) :
  Float32.resample_loop fuel (repeat 0 n) g k = Some (repeat 0 n, g, k).
Proof.
  assert (Hc : gtb_nan (mean_bool (abs_gt (repeat 0 n) 2.5)) 0.05 = false).
  { rewrite abs_gt_zeros by lra. apply mean_bool_all_false; lra. }
  destruct fuel; cbn [Float32.resample_loop]; rewrite Hc; reflexivity.
Qed.

Lemma map2_repeat_right {X Y Z} (f : X -> Y -> Z) (a : list X) (c : Y) (n : nat) :
  length a = n -> map2 f a (repeat c n) = map (fun x => f x c) a.
Proof.
  revert a. induction n as [|n IH]; intros [|x a]; cbn [length];
    try discriminate; [reflexivity|].
  intros [= Hl]. cbn [repeat map]. rewrite map2_cons. f_equal. now apply IH.
Qed.

Lemma rows_of_length (row : R -> R -> R -> list R) (q ms az : array) (n : nat) :
  length q = n -> length ms = n -> length az = n ->
  length (Float32.rows_of row q ms az) = n.
Proof.
  revert q ms az. induction n as [|n IH]; intros [|a q] [|b ms] [|c az];
    cbn [length]; try discriminate; [reflexivity|].
  intros [= Hq] [= Hm] [= Ha]. cbn [Float32.rows_of length]. f_equal.
  now apply IH.
Qed.

(** The stacked columns of a call, row by row. *)
Lemma stack4_cartesian_rows (q ms az : array) (n : nat) :
  length q = n -> length ms = n -> length az = n ->
  stack4 (map2 (fun a b => Float32.sqrt32
                  (Float32.add32 (Float32.mul32 a a) (Float32.mul32 b b))) q ms)
         (map2 (fun a b => Float32.mul32 a (Float32.cos32 b))
               (map Float32.transverse q) az)
         (map2 (fun a b => Float32.mul32 a (Float32.sin32 b))
               (map Float32.transverse q) az)
         (map (fun a => Float32.mul32 a (Float32.sin32 Float32.theta0)) q) =
  Float32.rows_of Float32.cartesian_row q ms az.
Proof.
  revert q ms az. induction n as [|n IH]; intros [|a q] [|b ms] [|c az];
    cbn [length]; try discriminate; [reflexivity|].
  intros [= Hq] [= Hm] [= Ha].
  cbn [map]. rewrite !map2_cons. cbn [stack4 Float32.rows_of].
  f_equal. now apply IH.
Qed.

Lemma stack4_cylindrical_rows (q ms az : array) (n : nat) :
  length q = n -> length ms = n -> length az = n ->
  stack4 (map2 (fun a b => Float32.sqrt32
                  (Float32.add32 (Float32.mul32 a a) (Float32.mul32 b b))) q ms)
         (map Float32.transverse q) (repeat 0 n) az =
  Float32.rows_of Float32.cylindrical_row q ms az.
Proof.
  revert q ms az. induction n as [|n IH]; intros [|a q] [|b ms] [|c az];
    cbn [length]; try discriminate; [reflexivity|].
  intros [= Hq] [= Hm] [= Ha].
  cbn [map repeat]. rewrite !map2_cons. cbn [stack4 Float32.rows_of].
  f_equal. now apply IH.
Qed.

Lemma cast_lengths (n : nat) (min_p max_p min_m max_m : R) (g : G) :
  length (Float32.cast_p n min_p max_p g) = n /\
  length (Float32.cast_m n min_p max_p min_m max_m g) = n /\
  length (Float32.cast_phi n min_p max_p min_m max_m g) = n.
Proof.
  unfold Float32.cast_p, Float32.cast_m, Float32.cast_phi.
  rewrite !astype_float32_length.
  repeat split; apply uniform_length.
Qed.

(** The locals of every call in float32 arithmetic, in closed form. *)
Lemma float32_get_data_body_eq (fuel n : nat) (min_p max_p min_m max_m : R)
    (cartesian : bool) (g : G) :
  let q := Float32.cast_p n min_p max_p g in
  let ms := Float32.cast_m n min_p max_p min_m max_m g in
  let az := Float32.cast_phi n min_p max_p min_m max_m g in
  Float32.get_data_body fuel n min_p max_p min_m max_m cartesian g =
  Some {| MassRegression.p := q; MassRegression.m := ms;
          MassRegression.phi := az; MassRegression.eta := repeat 0 n;
          MassRegression.e :=
            map2 (fun a b => Float32.sqrt32
                    (Float32.add32 (Float32.mul32 a a) (Float32.mul32 b b))) q ms;
          MassRegression.theta := repeat Float32.theta0 n;
          MassRegression.pt := map Float32.transverse q;
          vec := Float32.rows_of (if cartesian then Float32.cartesian_row
                                  else Float32.cylindrical_row) q ms az;
          iterations := 0;
          rng_after := snd (drawn_phi n min_p max_p min_m max_m g) |}.
Proof.
  intros q ms az.
  destruct (cast_lengths n min_p max_p min_m max_m g) as (Hq & Hm & Ha).
  fold q in Hq. fold ms in Hm. fold az in Ha.
  subst q ms az.
  unfold Float32.cast_p, Float32.cast_m, Float32.cast_phi in *.
  unfold drawn_phi, drawn_m, drawn_p in *. unfold Float32.get_data_body.
  destruct (Random.uniform min_p max_p n g) as [p0 g1]. cbn [fst snd] in *.
  destruct (Random.uniform min_m max_m n g1) as [m0 g2]. cbn [fst snd] in *.
  destruct (Random.uniform (- PI) PI n g2) as [phi0 g3]. cbn [fst snd] in *.
  unfold zeros_like. rewrite Hq, float32_resample_loop_zeros.
  rewrite astype_float32_zeros, map_repeat.
  change (Float32.mul32 2 (Float32.arctan32 (Float32.exp32 (- 0))))
    with Float32.theta0.
  rewrite !(map2_repeat_right _ _ _ n Hq).
  change (map (fun x => Float32.mul32 x (Float32.cos32 Float32.theta0)))
    with (map Float32.transverse).
  destruct cartesian.
  - now rewrite (stack4_cartesian_rows _ _ _ n Hq Hm Ha).
  - now rewrite (stack4_cylindrical_rows _ _ _ n Hq Hm Ha).
Qed.

Lemma float32_get_data_eq (fuel n : nat) (min_p max_p min_m max_m : R)
    (cartesian : bool) (g : G) :
  Float32.get_data fuel n min_p max_p min_m max_m cartesian g =
  Some (Float32.rows_of (if cartesian then Float32.cartesian_row
                         else Float32.cylindrical_row)
          (Float32.cast_p n min_p max_p g)
          (Float32.cast_m n min_p max_p min_m max_m g)
          (Float32.cast_phi n min_p max_p min_m max_m g),
        Float32.cast_m n min_p max_p min_m max_m g,
        snd (drawn_phi n min_p max_p min_m max_m g)).
Proof.
  unfold Float32.get_data.
  rewrite (float32_get_data_body_eq fuel n min_p max_p min_m max_m cartesian g).
  reflexivity.
Qed.

End Float32Facts.

Section ExactArithmetic.
Context {G : Type} `{RandomState G}.

Lemma astype_float32_exact (a : array) :
  @Float32.astype_float32 Float32.Exact a = a.
Proof. unfold Float32.astype_float32. cbn [Float32.round32 Float32.Exact]. apply map_id. Qed.

Lemma resample_loop_exact (fuel : nat) (eta0 : array) (g : G) (k : nat) :
  @Float32.resample_loop G _ Float32.Exact fuel eta0 g k =
  resample_loop fuel eta0 g k.
Proof.
  revert eta0 g k. induction fuel as [|fuel IH]; intros eta0 g k;
    cbn [Float32.resample_loop resample_loop]; [reflexivity|].
  destruct (gtb_nan _ 0.05); [|reflexivity].
  destruct (Random.normal 0 2.5 _ g) as [values g1].
  rewrite astype_float32_exact. apply IH.
Qed.

(** Without rounding the float32 sampler is the sampler over the real
    numbers. *)
Lemma get_data_body_exact (fuel n : nat) (min_p max_p min_m max_m : R)
    (cartesian : bool) (g : G) :
  @Float32.get_data_body G _ Float32.Exact fuel n min_p max_p min_m max_m
    cartesian g =
  get_data_body fuel n min_p max_p min_m max_m cartesian g.
Proof.
  unfold Float32.get_data_body, get_data_body.
  destruct (Random.uniform min_p max_p n g) as [p0 g1].
  destruct (Random.uniform min_m max_m n g1) as [m0 g2].
  destruct (Random.uniform (- PI) PI n g2) as [phi0 g3].
  rewrite !astype_float32_exact, resample_loop_exact.
  unfold astype_float32.
  destruct (resample_loop fuel (zeros_like p0) g3 0) as [[[eta0 g4] k]|];
    [|reflexivity].
  rewrite astype_float32_exact. reflexivity.
Qed.

Lemma theta0_exact : @Float32.theta0 Float32.Exact = PI / 2.
Proof.
  unfold Float32.theta0, Float32.mul32.
  cbn [Float32.round32 Float32.arctan32 Float32.exp32 Float32.Exact].
  rewrite Ropp_0, exp_0, atan_1. lra.
Qed.


Lemma cartesian_row_exact (q ms az : R) :
  @Float32.cartesian_row Float32.Exact q ms az =
  [sqrt (q * q + ms * ms); 0; 0; q].
Proof.
  unfold Float32.cartesian_row, Float32.transverse, Float32.energy,
    Float32.mul32, Float32.add32.
  rewrite theta0_exact.
  cbn [Float32.round32 Float32.sqrt32 Float32.cos32 Float32.sin32 Float32.Exact].
  rewrite cos_PI2, sin_PI2. repeat f_equal; lra.
Qed.

End ExactArithmetic.

Section Float32Claims.
Context {G : Type} `{RandomState G}.

(** C2.  For every count, all bounds and every float32 arithmetic the
    rejection loop of [get_data] runs zero times: the array of zeros
    passes the test made before any resampling.  The call returns for
    every fuel, zero included; no normal deviate is drawn; the
    pseudorapidity is identically zero; the polar angle is the float32
    value [theta0] of [2.0 * arctan(exp(-0.0))] and the transverse
    momentum is [p * cos(theta0)] in float32; the Cartesian sample is
    [(e, pt * cos(phi), pt * sin(phi), p * sin(theta0))].  Over real
    arithmetic, where nothing is rounded, the sampler is the one of
    [MassRegression]: the polar angle is [pi/2], the transverse momentum
    is 0 and the Cartesian sample is [(e, 0, 0, p)]. *)
Theorem get_data_loop_runs_zero_times_float32
    (A : Float32.Arithmetic) (fuel n : nat) (min_p max_p min_m max_m : R)
    (cartesian : bool) (g : G) :
  (exists l : Locals,
     Float32.get_data_body fuel n min_p max_p min_m max_m cartesian g = Some l /\
     Float32.get_data fuel n min_p max_p min_m max_m cartesian g =
       Some (vec l, m l, rng_after l) /\
     iterations l = 0%nat /\
     rng_after l = snd (drawn_phi n min_p max_p min_m max_m g) /\
     eta l = repeat 0 n /\
     theta l = repeat Float32.theta0 n /\
     p l = Float32.cast_p n min_p max_p g /\
     pt l = map Float32.transverse (p l) /\
     vec l = Float32.rows_of (if cartesian then Float32.cartesian_row
                              else Float32.cylindrical_row)
               (p l) (m l) (phi l) /\
     length (vec l) = n) /\
  (@Float32.get_data_body G _ Float32.Exact fuel n min_p max_p min_m max_m
     cartesian g =
     get_data_body fuel n min_p max_p min_m max_m cartesian g /\
   exists l : Locals,
     get_data_body fuel n min_p max_p min_m max_m cartesian g = Some l /\
     iterations l = 0%nat /\
     eta l = repeat 0 n /\
     theta l = repeat (PI / 2) n /\
     pt l = repeat 0 n /\
     p l = fst (drawn_p n min_p max_p g) /\
     rng_after l = snd (drawn_phi n min_p max_p min_m max_m g) /\
     get_data fuel n min_p max_p min_m max_m true g =
       Some (stack4 (e l) (repeat 0 n) (repeat 0 n) (p l), m l, rng_after l) /\
     Forall2 (fun row q => exists en, row = [en; 0; 0; q])
             (stack4 (e l) (repeat 0 n) (repeat 0 n) (p l)) (p l)).
Proof.
  split.
  - eexists. split; [apply float32_get_data_body_eq|].
    cbn [iterations eta theta pt p m phi vec rng_after].
    split; [apply float32_get_data_eq|].
    repeat (split; [reflexivity|]).
    destruct (cast_lengths n min_p max_p min_m max_m g) as (Hq & Hm & Ha).
    now apply rows_of_length.
  - split; [apply get_data_body_exact | apply get_data_real_arithmetic].
Qed.

(** C8.  With [min_m] at least the least positive float32 number,
    [min_m <= max_m] and [max_m] at most the largest float32 number, in
    every float32 arithmetic every true mass of a batch of [get_data] is
    at least the cast of [min_m] to float32 and lies between the least
    positive and the largest float32 number: it is positive, so no
    division by it has a zero denominator.  Over real arithmetic, where
    the cast is the identity, every mass is at least [min_m] itself and
    every quotient by it is a number. *)
Theorem masses_positive_float32
    (A : Float32.Arithmetic) (fuel n : nat) (min_p max_p min_m max_m : R)
    (cartesian : bool) (g : G) :
  Float32.least_positive <= min_m -> min_m <= max_m ->
  max_m <= Float32.largest ->
  (exists (batch : array2) (masses : array) (g' : G),
     Float32.get_data fuel n min_p max_p min_m max_m cartesian g =
       Some (batch, masses, g') /\
     length masses = n /\
     Forall (fun t => Float32.round32 min_m <= t /\
                      Float32.least_positive <= t <= Float32.largest /\
                      0 < t /\ t <> 0) masses) /\
  (exists (batch : array2) (masses : array) (g' : G),
     get_data fuel n min_p max_p min_m max_m cartesian g =
       Some (batch, masses, g') /\
     Forall (fun t => min_m <= t /\ 0 < t /\
                      forall a : R, divide a t = Some (a / t)) masses).
Proof.
  intros Hlow Hord Hhigh.
  pose proof least_positive_pos as Hpos.
  assert (Hdiv : forall t a : R, 0 < t -> divide a t = Some (a / t)).
  { intros t a Ht. unfold divide. destruct (Req_dec_T t 0); [lra | reflexivity]. }
  pose proof (uniform_range min_m max_m n
                (snd (drawn_p n min_p max_p g)) Hord) as Hrange.
  split.
  - do 3 eexists. split; [apply float32_get_data_eq|].
    split; [apply cast_lengths|].
    unfold Float32.cast_m, drawn_m.
    apply astype_float32_between in Hrange.
    eapply Forall_impl; [|exact Hrange].
    intros t [Ht1 Ht2]. cbv beta in *.
    assert (Hl : Float32.least_positive <= Float32.round32 min_m).
    { rewrite <- (Float32.round32_exact Float32.least_positive)
        by apply representable_least_positive.
      now apply Float32.round32_monotone. }
    assert (Hh : Float32.round32 max_m <= Float32.largest).
    { rewrite <- (Float32.round32_exact Float32.largest)
        by apply representable_largest.
      now apply Float32.round32_monotone. }
    split; [assumption|]. split; [lra|]. split; lra.
  - do 3 eexists. split; [apply get_data_eq|].
    unfold drawn_m. eapply Forall_impl; [|exact Hrange].
    intros t [Ht1 Ht2]. cbv beta.
    split; [assumption|]. split; [lra|].
    intros a. apply Hdiv. lra.
Qed.

End Float32Claims.

Section Kinematics.

(** One sample: whatever the polar angle, the three momentum components
    have the drawn magnitude, and the energy closes the invariant. *)
Lemma sample_invariant (q mass az polar : R) :
  let en := sqrt (q * q + mass * mass) in
  let pt := q * cos polar in
  relativistic_invariant
    [en; pt * cos az; pt * sin az; q * sin polar] mass.
Proof.
  intros en pt.
  assert (Hmom : pt * cos az * (pt * cos az) + pt * sin az * (pt * sin az)
                 + q * sin polar * (q * sin polar) = q * q).
  { pose proof (sin2_cos2 az) as Haz. pose proof (sin2_cos2 polar) as Hpo.
    unfold Rsqr in Haz, Hpo. subst pt.
    replace (q * cos polar * cos az * (q * cos polar * cos az)
             + q * cos polar * sin az * (q * cos polar * sin az)
             + q * sin polar * (q * sin polar))
      with (q * q * (cos polar * cos polar
                     * (sin az * sin az + cos az * cos az)
                     + sin polar * sin polar)) by ring.
    rewrite Haz, Rmult_1_r, Rplus_comm, Hpo. ring. }
  exists en, (pt * cos az), (pt * sin az), (q * sin polar).
  split; [reflexivity|]. rewrite Hmom. split.
  - subst en. rewrite sqrt_sqrt by nra. ring.
  - subst en. apply sqrt_le_1_alt. nra.
Qed.

Lemma cartesian_rows_invariant (n : nat) (q mass az polar : array) :
  length q = n -> length mass = n -> length az = n -> length polar = n ->
  let pt := map2 (fun a b => a * cos b) q polar in
  Forall2 relativistic_invariant
    (stack4 (map2 (fun a b => sqrt (a * a + b * b)) q mass)
            (px_of pt az) (py_of pt az) (pz_of q polar))
    mass.
Proof.
  revert q mass az polar.
  induction n as [|n IH]; intros [|a q] [|b mass] [|c az] [|d polar];
    cbn [length]; try discriminate; intros Hq Hm Ha Hp.
  - constructor.
  - injection Hq as Hq; injection Hm as Hm; injection Ha as Ha; injection Hp as Hp.
    unfold px_of, py_of, pz_of. rewrite !map2_cons. cbn [stack4].
    constructor.
    + apply sample_invariant.
    + apply (IH q mass az polar Hq Hm Ha Hp).
Qed.

End Kinematics.

Section SamplerInvariants.
Context {G : Type} `{RandomState G}.

(** C3.  Every batch of [get_data] in the Cartesian basis, for every count
    and all bounds (ordered or not), has [n] rows [(e, px, py, pz)], each
    with [e² − (px² + py² + pz²)] equal to the square of its paired mass and
    [e >= sqrt (px² + py² + pz²)], over the real numbers. *)
Theorem get_data_relativistic_invariant
    (fuel n : nat) (min_p max_p min_m max_m : R) (g : G) :
  exists (rows : array2) (masses : array) (g' : G),
    get_data fuel n min_p max_p min_m max_m true g = Some (rows, masses, g') /\
    length rows = n /\ length masses = n /\
    Forall2 relativistic_invariant rows masses.
Proof.
  pose proof (get_data_body_eq fuel n min_p max_p min_m max_m true g) as Hb.
  cbv zeta in Hb. unfold get_data. rewrite Hb. cbn [vec m rng_after].
  assert (Hp : length (fst (drawn_p n min_p max_p g)) = n)
    by apply uniform_length.
  assert (Hm : length (fst (drawn_m n min_p max_p min_m max_m g)) = n)
    by apply uniform_length.
  assert (Hphi : length (fst (drawn_phi n min_p max_p min_m max_m g)) = n)
    by apply uniform_length.
  assert (Hth : length (map (fun x => 2 * atan (exp (- x))) (repeat 0 n)) = n)
    by (rewrite length_map; apply repeat_length).
  do 3 eexists. split; [reflexivity|].
  pose proof (cartesian_rows_invariant n _ _ _ _ Hp Hm Hphi Hth) as Hinv.
  cbv zeta in Hinv.
  split; [|split; [exact Hm | exact Hinv]].
  rewrite (Forall2_length Hinv). exact Hm.
Qed.

(** C9.  Two runs of [get_data] on the same arguments from the same
    generator state return the same batch, the same masses and leave the
    same generator state, whatever bound each run puts on its loop; the
    batch has [n] rows of 4 entries and is paired with [n] masses. *)
Theorem get_data_deterministic_shape
    (fuel1 fuel2 n : nat) (min_p max_p min_m max_m : R) (cartesian : bool)
    (g : G) :
  exists (rows : array2) (masses : array) (g' : G),
    get_data fuel1 n min_p max_p min_m max_m cartesian g
      = Some (rows, masses, g') /\
    get_data fuel2 n min_p max_p min_m max_m cartesian g
      = Some (rows, masses, g') /\
    length rows = n /\
    Forall (fun row => length row = 4%nat) rows /\
    length masses = n.
Proof.
  do 3 eexists.
  split; [apply get_data_eq|]. split; [apply get_data_eq|].
  destruct (drawn_batch_shape n min_p max_p min_m max_m cartesian g)
    as (Hl & Hr & Hm).
  auto.
Qed.

End SamplerInvariants.

(** ** Runs on the constant generator *)

Section ConcreteRuns.
Import Concrete.

(** On the constant generator a uniform call of [n] draws advances the
    first counter by [n] and leaves the counter of normal deviates. *)
Lemma const_uniform_state (low high : R) (n : nat) (g : nat * nat) :
  snd (Random.uniform low high n g) = ((fst g + n)%nat, snd g).
Proof.
  unfold Random.uniform. revert g.
  induction n as [|n IH]; intros [a b].
  - cbn. now rewrite Nat.add_0_r.
  - cbn [Random.draws]. cbn [random_sample ConstGen fst snd] in *.
    specialize (IH (S a, b)).
    destruct (Random.draws _ n (S a, b)) as [xs g2].
    cbn [fst snd] in *. rewrite IH. f_equal. lia.
Qed.

(** C1.  The run [get_data(64, 0.0, 200.0, 0.1, 100.0)] on a generator
    whose normal deviates would all be [0 + 2.5 * 2 = 5]: with room for a
    thousand runs of the loop body, the body runs zero times; the
    pseudorapidity is the array of zeros it was initialised with; the
    generator has made the 192 uniform draws and no normal draw. *)
Theorem get_data_never_draws_eta :
  exists l : Locals,
    get_data_body 1000 64 0 200 0.1 100 true (0%nat, 0%nat) = Some l /\
    eta l = repeat 0 64 /\
    iterations l = 0%nat /\
    rng_after l = (192%nat, 0%nat) /\
    fst (Random.normal 0 2.5 1 (192%nat, 0%nat)) = [0 + 2.5 * 2].
Proof.
  eexists. split; [apply get_data_body_eq|].
  cbn [eta iterations rng_after].
  split; [reflexivity|]. split; [reflexivity|]. split; [|reflexivity].
  unfold drawn_phi, drawn_m, drawn_p.
  rewrite !const_uniform_state. reflexivity.
Qed.

End ConcreteRuns.

Section Float32Runs.
Import Concrete.

(** On the constant generator every uniform draw is the midpoint of its
    range. *)
Lemma const_uniform_values (low high : R) (n : nat) (g : nat * nat) :
  fst (Random.uniform low high n g) = repeat (low + (high - low) * (1 / 2)) n.
Proof.
  unfold Random.uniform. revert g.
  induction n as [|n IH]; intros [a b]; [reflexivity|].
  cbn [Random.draws]. cbn [random_sample ConstGen fst snd] in *.
  specialize (IH (S a, b)).
  destruct (Random.draws _ n (S a, b)) as [xs g2].
  cbn [fst] in *. now rewrite IH.
Qed.

(** The table of float32 facts is met by an arithmetic. *)
Lemma flushed_table : Float32.Binary32Table Flushed.
Proof.
  constructor; cbn [Float32.round32 Float32.exp32 Float32.arctan32
                    Float32.cos32 Flushed].
  - intros x Hx. unfold flush.
    destruct (Rle_dec _ _); [reflexivity | contradiction].
  - rewrite Ropp_0. apply exp_0.
  - unfold arctan_table. destruct (Req_dec_T 1 1); [reflexivity | lra].
  - unfold cos_table. destruct (Req_dec_T _ _); [lra | contradiction].
  - unfold cos_table. destruct (Req_dec_T _ _); [lra | apply cos_0].
Qed.

(** In float32 the polar angle of pseudorapidity 0 is [13176795 / 2^23],
    about [1.5707964], and its cosine is not 0. *)
Lemma theta0_table (A : Float32.Arithmetic) :
  Float32.Binary32Table A -> @Float32.theta0 A = 13176795 / 8388608.
Proof.
  intros T. unfold Float32.theta0, Float32.mul32.
  rewrite (Float32.exp32_zero A T), (Float32.arctan32_one A T).
  replace (2 * (13176795 / 16777216)) with (13176795 / 8388608) by lra.
  apply Float32.round32_exact, representable_half_pi.
Qed.

Lemma transverse_table (A : Float32.Arithmetic) (q : R) :
  Float32.Binary32Table A -> 3 <= q ->
  @Float32.transverse A q <= - / 8388608.
Proof.
  intros T Hq. unfold Float32.transverse, Float32.mul32.
  rewrite (theta0_table A T).
  pose proof (Float32.cos32_near_half_pi A T) as [_ Hc].
  rewrite <- (Float32.round32_exact (- / 8388608))
    by (apply (representable_opp_power 23); lia).
  apply Float32.round32_monotone. nra.
Qed.

(** The call [get_data(1, 3.0, 3.0, 4.0, 4.0)] on the constant generator
    (momentum 3, mass 4, azimuth 0): under the table of float32 facts the
    second entry [px] of the sample is at most [-2^-23], not 0. *)
Lemma get_data_float32_px_not_zero :
  (exists A : Float32.Arithmetic, Float32.Binary32Table A) /\
  (forall A : Float32.Arithmetic, Float32.Binary32Table A ->
     exists (en px py pz : R) (g' : nat * nat),
       @Float32.get_data _ ConstGen A 0 1 3 3 4 4 true (0%nat, 0%nat) =
         Some ([[en; px; py; pz]], [4], g') /\
       px <= - / 8388608 /\ px <> 0).
Proof.
  split; [exists Flushed; exact flushed_table|].
  intros A T.
  assert (Hq : @Float32.cast_p _ ConstGen A 1 3 3 (0%nat, 0%nat) = [3]).
  { unfold Float32.cast_p, drawn_p. rewrite uniform_point.
    cbn [repeat Float32.astype_float32 map].
    now rewrite (round32_integer 3) by reflexivity. }
  assert (Hm : @Float32.cast_m _ ConstGen A 1 3 3 4 4 (0%nat, 0%nat) = [4]).
  { unfold Float32.cast_m, drawn_m. rewrite uniform_point.
    cbn [repeat Float32.astype_float32 map].
    now rewrite (round32_integer 4) by reflexivity. }
  assert (Ha : @Float32.cast_phi _ ConstGen A 1 3 3 4 4 (0%nat, 0%nat) = [0]).
  { unfold Float32.cast_phi, drawn_phi. rewrite const_uniform_values.
    cbn [repeat Float32.astype_float32 map].
    replace (- PI + (PI - - PI) * (1 / 2)) with 0 by lra.
    now rewrite round32_zero. }
  do 5 eexists. split.
  - rewrite float32_get_data_eq, Hq, Hm, Ha. cbn [Float32.rows_of].
    unfold Float32.cartesian_row. reflexivity.
  - assert (Hpx : Float32.mul32 (Float32.transverse 3) (Float32.cos32 0)
                  <= - / 8388608).
    { unfold Float32.mul32 at 1. rewrite (Float32.cos32_zero A T).
      rewrite <- (Float32.round32_exact (- / 8388608))
        by (apply (representable_opp_power 23); lia).
      apply Float32.round32_monotone.
      pose proof (transverse_table A 3 T (Rle_refl 3)). lra. }
    split; [exact Hpx | lra].
Qed.

(** The notebook's mass range in the arithmetic that flushes to zero. *)
Lemma masses_positive_float32_witness :
  Float32.least_positive <= 0.1 /\ 0.1 <= 100 /\ 100 <= Float32.largest /\
  (exists (batch : array2) (masses : array) (g' : nat * nat),
     @Float32.get_data _ ConstGen Flushed 0 64 0 200 0.1 100 true
       (0%nat, 0%nat) = Some (batch, masses, g') /\
     length masses = 64%nat /\
     Forall (fun t => flush 0.1 <= t /\
                      Float32.least_positive <= t <= Float32.largest /\
                      0 < t /\ t <> 0) masses) /\
  (exists (batch : array2) (masses : array) (g' : nat * nat),
     get_data 0 64 0 200 0.1 100 true (0%nat, 0%nat) =
       Some (batch, masses, g') /\
     Forall (fun t => 0.1 <= t /\ 0 < t /\
                      forall a : R, divide a t = Some (a / t)) masses).
Proof.
  assert (Hlow : Float32.least_positive <= 0.1).
  { unfold Float32.least_positive.
    let v := eval vm_compute in (2 ^ 149)%Z in change (2 ^ 149)%Z with v.
    lra. }
  assert (Hord : 0.1 <= 100) by lra.
  assert (Hhigh : 100 <= Float32.largest).
  { unfold Float32.largest.
    let v := eval vm_compute in ((2 ^ 24 - 1) * 2 ^ 104)%Z in
      change ((2 ^ 24 - 1) * 2 ^ 104)%Z with v.
    lra. }
  split; [exact Hlow|]. split; [exact Hord|]. split; [exact Hhigh|].
  exact (masses_positive_float32 Flushed 0 64 0 200 0.1 100 true
           (0%nat, 0%nat) Hlow Hord Hhigh).
Defined.

(** The call [get_data(1, 0.0, 200.0, 1e-46, 2e-46)] on the constant
    generator: the bounds are positive and ordered, the double drawn is
    [1.5e-46], and under the table of float32 facts the mass returned is
    0, by which nothing can be divided. *)
Lemma get_data_float32_mass_underflow :
  (exists A : Float32.Arithmetic, Float32.Binary32Table A) /\
  (0 < 1e-46 /\ 1e-46 < 2e-46) /\
  (forall A : Float32.Arithmetic, Float32.Binary32Table A ->
     exists (batch : array2) (g' : nat * nat),
       @Float32.get_data _ ConstGen A 0 1 0 200 1e-46 2e-46 true
         (0%nat, 0%nat) = Some (batch, [0], g') /\
       forall a : R, divide a 0 = None).
Proof.
  split; [exists Flushed; exact flushed_table|].
  split; [lra|].
  intros A T. do 2 eexists. split.
  - rewrite float32_get_data_eq. f_equal. f_equal.
    unfold Float32.cast_m, drawn_m. rewrite const_uniform_values.
    cbn [repeat Float32.astype_float32 map].
    rewrite (Float32.underflow A T); [reflexivity|].
    rewrite Rabs_pos_eq by lra.
    let v := eval vm_compute in (2 ^ 150)%Z in change (2 ^ 150)%Z with v.
    lra.
  - intros a. unfold divide. destruct (Req_dec_T 0 0); [reflexivity | lra].
Qed.

End Float32Runs.

(** ** Target scaling *)

Section TargetScaling.

Lemma sqrt_12_pos : 0 < sqrt 12.
Proof. apply sqrt_lt_R0. lra. Qed.

Lemma target_sigma_pos (ds : DataSpec) :
  min_m ds < max_m ds -> 0 < target_sigma ds.
Proof.
  intros Hlt. unfold target_sigma.
  apply Rdiv_lt_0_compat; [lra | apply sqrt_12_pos].
Qed.

Lemma target_sigma_nonzero (ds : DataSpec) :
  min_m ds <> max_m ds -> target_sigma ds <> 0.
Proof.
  intros Hne. unfold target_sigma, Rdiv.
  apply Rmult_integral_contrapositive_currified; [lra|].
  apply Rinv_neq_0_compat. pose proof sqrt_12_pos. lra.
Qed.

Lemma scale_target_forward (ds : DataSpec) (t : R) :
  target_sigma ds <> 0 ->
  scale_target ds t false = Some ((t - target_mu ds) / target_sigma ds).
Proof.
  intros Hs. unfold scale_target, divide.
  destruct (Req_dec_T (target_sigma ds) 0); [contradiction | reflexivity].
Qed.

Lemma elementwise_map (f : R -> option R) (h : R -> R) (a : array) :
  (forall x, f x = Some (h x)) -> elementwise f a = Some (map h a).
Proof.
  intros Hf. induction a as [|x a IH]; [reflexivity|].
  cbn [elementwise map]. now rewrite Hf, IH.
Qed.

(** C4.  With [max_m > min_m], scaling any real value gives a number, and
    rescaling that number returns the value:
    [scale_target(scale_target(v), rescale=True)] is [v], exactly over the
    real numbers. *)
Theorem scale_target_round_trip (ds : DataSpec) (v : R) :
  min_m ds < max_m ds ->
  exists scaled : R,
    scale_target ds v false = Some scaled /\
    scale_target ds scaled true = Some v.
Proof.
  intros Hlt. pose proof (target_sigma_pos ds Hlt) as Hs.
  eexists. split; [apply scale_target_forward; lra|].
  unfold scale_target. f_equal. field. lra.
Qed.

(** The round trip on the notebook's range [0.1 .. 100], at a value outside
    of it. *)
Lemma scale_target_round_trip_witness :
  min_m notebook_data_spec < max_m notebook_data_spec /\
  exists scaled : R,
    scale_target notebook_data_spec 250 false = Some scaled /\
    scale_target notebook_data_spec scaled true = Some 250.
Proof.
  assert (Hlt : min_m notebook_data_spec < max_m notebook_data_spec)
    by (simpl; lra).
  split; [exact Hlt | exact (scale_target_round_trip notebook_data_spec 250 Hlt)].
Defined.

End TargetScaling.

(** ** The training step and the training loop *)

Section MetricFacts.

Lemma broadcast_same_length {A} (f : R -> R -> A) (a b : array) :
  length a = length b -> broadcast f a b = Some (map2 f a b).
Proof. intros Hl. unfold broadcast. now rewrite Hl, Nat.eqb_refl. Qed.

(** Column 0 of an array whose rows have one entry. *)
Lemma column0_single (a : array2) :
  Forall (fun row => length row = 1%nat) a ->
  column0 a = Some (map (fun row => hd 0 row) a).
Proof.
  induction 1 as [|row a Hrow _ IH]; [reflexivity|].
  destruct row as [|x row]; [discriminate|].
  cbn [column0 map hd]. now rewrite IH.
Qed.

(** The squared differences listed by index are those listed by zipping. *)
Lemma squares_by_index (pred truth : array) :
  length pred = length truth ->
  map (fun i => (nth i pred 0 - nth i truth 0) ^ 2) (seq 0 (length pred)) =
  map (fun x => x * x) (map2 Rminus pred truth).
Proof.
  revert truth.
  induction pred as [|a pred IH]; intros [|b truth]; cbn [length];
    try discriminate; [reflexivity|].
  intros [= Hl]. rewrite map2_cons. cbn [seq map nth].
  rewrite <- seq_shift, map_map. cbn [nth].
  rewrite (IH truth Hl). f_equal. ring.
Qed.

(** The mean of the zipped squared differences is the mean squared error. *)
Lemma mean_squares (pred truth : array) :
  length pred = length truth ->
  mean (map (fun x => x * x) (map2 Rminus pred truth)) =
  mean_squared_error pred truth.
Proof.
  intros Hl. unfold mean_squared_error.
  rewrite (squares_by_index pred truth Hl).
  destruct pred as [|a pred]; destruct truth as [|b truth];
    try discriminate; [reflexivity|].
  rewrite map2_cons. cbn [map mean]. cbn [length] in Hl |- *.
  injection Hl as Hl.
  rewrite length_map, (map2_length Rminus pred truth Hl). reflexivity.
Qed.

(** A sample counts in [abs(rel_err) < tol] exactly when its relative
    error is below [tol]. *)
Lemma abs_lt_divide (tol prediction t : R) :
  ltb_nan (option_map Rabs (divide (prediction - t) t)) tol =
  relative_error_below tol prediction t.
Proof.
  unfold divide, relative_error_below.
  destruct (Req_dec_T t 0); reflexivity.
Qed.

Lemma count_below (tol : R) (pred truth : array) :
  length pred = length truth ->
  count_true (abs_lt (map2 divide (map2 Rminus pred truth) truth) tol) =
  length (filter (fun s => relative_error_below tol (fst s) (snd s))
                 (combine pred truth)).
Proof.
  unfold count_true. revert truth.
  induction pred as [|a pred IH]; intros [|b truth]; cbn [length];
    try discriminate; [reflexivity|].
  intros [= Hl]. rewrite !map2_cons. cbn [abs_lt map combine filter fst snd].
  rewrite abs_lt_divide.
  specialize (IH truth Hl). unfold abs_lt in IH.
  destruct (relative_error_below tol a b); cbn [length]; now rewrite IH.
Qed.

(** The printed mean of the mask is the fraction of the specification, on
    a batch that is not empty. *)
Lemma mean_bool_fraction (tol : R) (pred truth : array) :
  length pred = length truth -> pred <> [] ->
  mean_bool (abs_lt (map2 divide (map2 Rminus pred truth) truth) tol) =
  Some (fraction_below tol pred truth).
Proof.
  intros Hl Hne. unfold fraction_below.
  rewrite <- (count_below tol pred truth Hl).
  assert (Hlen : length (abs_lt (map2 divide (map2 Rminus pred truth) truth) tol)
                 = length pred).
  { unfold abs_lt. rewrite length_map.
    rewrite map2_length; rewrite map2_length; congruence. }
  destruct (abs_lt _ tol) as [|b mask] eqn:Hmask.
  - destruct pred; [now contradiction Hne | discriminate].
  - rewrite mean_bool_cons, Hlen. reflexivity.
Qed.

End MetricFacts.

Section TrainingFacts.
Context {G : Type} `{RandomState G}.
Context {W Opt Grad : Type} `{Framework W Opt Grad}.
Variable ds : DataSpec.

Lemma output_column_eq (w : W) (training : bool) (x : array2) :
  column0 (model_call w training x) = Some (output_column w training x) /\
  length (output_column w training x) = length x.
Proof.
  destruct (model_call_shape w training x) as [Hl Hr]. split.
  - now apply column0_single.
  - unfold output_column. now rewrite length_map.
Qed.

(** The scalar on the tape is the mean squared error of the model's output
    at the weights it is evaluated at. *)
Lemma recorded_loss_eq (x : array2) (truth : array) (w : W) :
  length truth = length x ->
  recorded_loss x truth w =
  Some (mean_squared_error (output_column w true x) truth).
Proof.
  intros Hl. unfold recorded_loss, loss_func.
  destruct (output_column_eq w true x) as [Hc Hlen]. rewrite Hc.
  rewrite broadcast_same_length by congruence.
  rewrite mean_squares by congruence. reflexivity.
Qed.

Lemma train_step_eq (x : array2) (truth : array) (optimizer : Opt)
    (s : Session (G := G)) :
  length truth = length x ->
  let gradients :=
    tape_gradient
      (fun w => match recorded_loss x truth w with
                | Some l => l
                | None => None
                end) (weights s) in
  train_step x truth optimizer s =
  Some (mean_squared_error (output_column (weights s) true x) truth,
        fst (apply_gradients optimizer gradients (weights s)),
        {| weights := snd (apply_gradients optimizer gradients (weights s));
           rng := rng s; updates := S (updates s) |}).
Proof.
  intros Hl gradients. unfold train_step.
  rewrite (recorded_loss_eq x truth (weights s) Hl). fold gradients.
  destruct (apply_gradients optimizer gradients (weights s)) as [o w].
  reflexivity.
Qed.

Lemma get_batch_eq (fuel n : nat) (g : G) :
  get_batch ds fuel n g =
  Some (drawn_batch n (min_p ds) (max_p ds) (min_m ds) (max_m ds)
                    (cartesian ds) g,
        fst (drawn_m n (min_p ds) (max_p ds) (min_m ds) (max_m ds) g),
        snd (drawn_phi n (min_p ds) (max_p ds) (min_m ds) (max_m ds) g)).
Proof. apply get_data_eq. Qed.

Lemma finite_entries_some (t : array) : finite_entries (map Some t) = Some t.
Proof. induction t as [|x t IH]; [reflexivity|]. cbn. now rewrite IH. Qed.

Lemma finite_entries_length (a : list (option R)) (t : array) :
  finite_entries a = Some t -> length t = length a.
Proof.
  revert t. induction a as [|[x|] a IH]; intros t; cbn [finite_entries].
  - now intros [= <-].
  - destruct (finite_entries a) as [xs|]; [|discriminate].
    intros [= <-]. cbn [length]. now rewrite (IH xs).
  - discriminate.
Qed.

(** On finite targets the step is [train_step]. *)
Lemma train_step_float_finite (x : array2) (t : array) (optimizer : Opt)
    (s : Session (G := G)) :
  train_step_float x (map Some t) optimizer s = train_step x t optimizer s.
Proof.
  assert (Hloss : forall w, recorded_loss_float x (map Some t) w
                            = recorded_loss x t w).
  { intros w. unfold recorded_loss_float, recorded_loss, loss_func_float.
    now rewrite finite_entries_some. }
  unfold train_step_float, train_step. rewrite Hloss.
  replace (fun w => match recorded_loss_float x (map Some t) w with
                    | Some l => l
                    | None => None
                    end)
    with (fun w => match recorded_loss x t w with
                   | Some l => l
                   | None => None
                   end)
    by (apply functional_extensionality; intros w; now rewrite Hloss).
  reflexivity.
Qed.

(** With one target per sample, finite or not, the step is made. *)
Lemma train_step_float_total (x : array2) (truth : list (option R))
    (optimizer : Opt) (s : Session (G := G)) :
  length truth = length x ->
  exists (loss : option R) (optimizer' : Opt) (s' : Session),
    train_step_float x truth optimizer s = Some (loss, optimizer', s') /\
    updates s' = S (updates s) /\ rng s' = rng s.
Proof.
  intros Hl. unfold train_step_float.
  assert (Hrec : exists loss, recorded_loss_float x truth (weights s) = Some loss).
  { unfold recorded_loss_float, loss_func_float.
    destruct (output_column_eq (weights s) true x) as [Hc Hlen]. rewrite Hc.
    destruct (finite_entries truth) as [t|] eqn:Hfin.
    - unfold loss_func. rewrite broadcast_same_length; [now eexists|].
      rewrite (finite_entries_length _ _ Hfin). congruence.
    - unfold broadcastable. replace (length truth) with (length x).
      rewrite Hlen, Nat.eqb_refl. now eexists. }
  destruct Hrec as [loss Hrec]. rewrite Hrec.
  destruct (apply_gradients optimizer _ (weights s)) as [o w].
  do 3 eexists. split; [reflexivity|]. split; reflexivity.
Qed.

(** One iteration of the [for] loop. *)
Lemma training_iterations_step (fuel k : nat) (optimizer : Opt)
    (s : Session (G := G)) :
  training_iterations ds fuel (S k) optimizer s =
  match get_batch ds fuel 64 (rng s) with
  | None => None
  | Some (vec, truth, g') =>
      match train_step_float vec (map (fun t => scale_target ds t false) truth)
              optimizer
              {| weights := weights s; rng := g'; updates := updates s |} with
      | None => None
      | Some (_, optimizer', s2) => training_iterations ds fuel k optimizer' s2
      end
  end.
Proof. reflexivity. Qed.

(** The training iterations always complete, with one update each, on
    every mass range. *)
Lemma training_iterations_total (fuel k : nat) (optimizer : Opt)
    (s : Session (G := G)) :
  exists (optimizer1 : Opt) (s1 : Session),
    training_iterations ds fuel k optimizer s = Some (optimizer1, s1) /\
    updates s1 = (updates s + k)%nat.
Proof.
  revert optimizer s.
  induction k as [|k IH]; intros optimizer s.
  - exists optimizer, s. split; [reflexivity | now rewrite Nat.add_0_r].
  - cbn [training_iterations]. rewrite get_batch_eq.
    destruct (drawn_batch_shape 64 (min_p ds) (max_p ds) (min_m ds) (max_m ds)
                (cartesian ds) (rng s)) as (Hl & _ & Hm).
    match goal with
    | |- context [train_step_float ?x ?t optimizer ?s1] =>
        destruct (train_step_float_total x t optimizer s1)
          as (loss & o' & s' & Hstep & Hup' & _);
        [rewrite length_map; congruence|]
    end.
    rewrite Hstep.
    destruct (IH o' s') as (o1 & s1 & Heq & Hup).
    exists o1, s1. split; [exact Heq|].
    rewrite Hup, Hup'. cbn [updates]. lia.
Qed.

Lemma test_size_pos : (0 < test_size)%nat.
Proof. apply Nat.ltb_lt. vm_compute. reflexivity. Qed.

(** The test after the training, in closed form. *)
Lemma evaluation_eq (fuel : nat) (s : Session (G := G)) :
  let vec := drawn_batch test_size (min_p ds) (max_p ds) (min_m ds) (max_m ds)
               (cartesian ds) (rng s) in
  let masses := fst (drawn_m test_size (min_p ds) (max_p ds) (min_m ds)
                       (max_m ds) (rng s)) in
  let g' := snd (drawn_phi test_size (min_p ds) (max_p ds) (min_m ds)
                   (max_m ds) (rng s)) in
  let prediction := map (fun t => t * target_sigma ds + target_mu ds)
                        (output_column (weights s) false vec) in
  length prediction = test_size /\ length masses = test_size /\
  elementwise (fun t => scale_target ds t true)
              (output_column (weights s) false vec) = Some prediction /\
  evaluation ds fuel s =
  Some ({| pred := prediction; truth := masses;
           rel_err := map2 divide (map2 Rminus prediction masses) masses;
           printed := Some (100 * fraction_below 0.10 prediction masses) |},
        {| weights := weights s; rng := g'; updates := updates s |}).
Proof.
  intros vec masses g' prediction.
  destruct (drawn_batch_shape test_size (min_p ds) (max_p ds) (min_m ds)
              (max_m ds) (cartesian ds) (rng s)) as (Hl & _ & Hm).
  fold vec in Hl. fold masses in Hm.
  destruct (output_column_eq (weights s) false vec) as [Hc Hlen].
  assert (Hp : length prediction = test_size).
  { unfold prediction. rewrite length_map. congruence. }
  assert (Hsc : elementwise (fun t => scale_target ds t true)
                  (output_column (weights s) false vec) = Some prediction)
    by (now apply elementwise_map).
  split; [exact Hp|]. split; [exact Hm|]. split; [exact Hsc|].
  unfold evaluation. rewrite get_batch_eq. fold vec masses g'.
  rewrite Hc, Hsc.
  rewrite (broadcast_same_length Rminus prediction masses) by congruence.
  rewrite (broadcast_same_length divide) by
    (rewrite map2_length; congruence).
  rewrite mean_bool_fraction; [reflexivity | congruence |].
  intros Hnil. rewrite Hnil in Hp. cbn [length] in Hp.
  pose proof test_size_pos. lia.
Qed.

End TrainingFacts.

Section EvaluationFloatFacts.
Context {G : Type} `{RandomState G}.
Context {W Opt Grad : Type} `{Framework W Opt Grad} `{FiniteOutputs W}.
Variable ds : DataSpec.

Lemma broadcast_with_same_length {X Y Z} (f : X -> Y -> Z)
    (a : list X) (b : list Y) :
  length a = length b -> broadcast_with f a b = Some (map2 f a b).
Proof. intros Hl. unfold broadcast_with. now rewrite Hl, Nat.eqb_refl. Qed.

(** On finite predictions the relative errors are those of [evaluation]. *)
Lemma rel_err_float_finite (prediction masses : array) :
  map2 divide_float (map2 minus_float (map Some prediction) masses) masses =
  map2 divide (map2 Rminus prediction masses) masses.
Proof.
  revert masses.
  induction prediction as [|a prediction IH]; intros [|t masses];
    try reflexivity.
  cbn [map]. rewrite !map2_cons. cbn [minus_float option_map divide_float].
  now rewrite IH.
Qed.

(** On [nan] predictions every relative error is [nan]. *)
Lemma rel_err_float_nan (n : nat) (masses : array) :
  length masses = n ->
  map2 divide_float (map2 minus_float (repeat None n) masses) masses =
  repeat None n.
Proof.
  revert masses. induction n as [|n IH]; intros [|t masses]; cbn [length];
    try discriminate; [reflexivity|].
  intros [= Hl]. cbn [repeat]. rewrite !map2_cons.
  cbn [minus_float option_map divide_float]. now rewrite IH.
Qed.

Lemma abs_lt_nan (n : nat) (tol : R) :
  abs_lt (repeat None n) tol = repeat false n.
Proof. unfold abs_lt. now rewrite map_repeat. Qed.

(** The mean of a mask that is not empty. *)
Lemma mean_bool_count (mask : list bool) :
  (0 < length mask)%nat ->
  mean_bool mask = Some (INR (count_true mask) / INR (length mask)).
Proof. destruct mask; [cbn; lia | intros _; apply mean_bool_cons]. Qed.

Lemma model_outputs_eq (w : W) (x : array2) :
  model_outputs w x = Some (test_outputs w x) /\
  length (test_outputs w x) = length x.
Proof.
  unfold model_outputs, test_outputs.
  destruct (output_column_eq w false x) as [Hc Hlen].
  destruct (finite_outputs w).
  - rewrite Hc. cbn [option_map]. split; [reflexivity|].
    now rewrite length_map.
  - rewrite map_const. split; [reflexivity | apply repeat_length].
Qed.

(** The test after the training, in closed form. *)
Lemma evaluation_float_eq (fuel : nat) (s : Session (G := G)) :
  let vec := drawn_batch test_size (min_p ds) (max_p ds) (min_m ds) (max_m ds)
               (cartesian ds) (rng s) in
  let masses := fst (drawn_m test_size (min_p ds) (max_p ds) (min_m ds)
                       (max_m ds) (rng s)) in
  let g' := snd (drawn_phi test_size (min_p ds) (max_p ds) (min_m ds)
                   (max_m ds) (rng s)) in
  let prediction := map (rescale_float ds) (test_outputs (weights s) vec) in
  let errors := map2 divide_float (map2 minus_float prediction masses) masses in
  length prediction = test_size /\ length errors = test_size /\
  evaluation_float ds fuel s =
  Some ({| pred_float := prediction; truth_float := masses;
           rel_err_float := errors;
           printed_float :=
             Some (100 * (INR (count_true (abs_lt errors 0.10))
                          / INR test_size)) |},
        {| weights := weights s; rng := g'; updates := updates s |}).
Proof.
  intros vec masses g' prediction errors.
  destruct (drawn_batch_shape test_size (min_p ds) (max_p ds) (min_m ds)
              (max_m ds) (cartesian ds) (rng s)) as (Hl & _ & Hm).
  fold vec in Hl. fold masses in Hm.
  destruct (model_outputs_eq (weights s) vec) as [Hout Hlen].
  assert (Hp : length prediction = test_size).
  { unfold prediction. rewrite length_map. congruence. }
  assert (He : length errors = test_size).
  { unfold errors. rewrite map2_length; rewrite map2_length; congruence. }
  split; [exact Hp|]. split; [exact He|].
  unfold evaluation_float. rewrite get_batch_eq. fold vec masses g'.
  rewrite Hout. fold prediction.
  rewrite (broadcast_with_same_length minus_float prediction masses)
    by congruence.
  rewrite (broadcast_with_same_length divide_float)
    by (rewrite map2_length; congruence).
  fold errors.
  rewrite mean_bool_count
    by (unfold abs_lt; rewrite length_map, He; apply test_size_pos).
  unfold abs_lt at 2. rewrite length_map, He. reflexivity.
Qed.

End EvaluationFloatFacts.

Section TrainingClaims.
Context {G : Type} `{RandomState G}.
Context {W Opt Grad : Type} `{Framework W Opt Grad} `{FiniteOutputs W}.
Variable ds : DataSpec.

(** C7.  For every batch [x], every target vector [truth] with one target
    per sample, and every optimizer, [train_step] returns the mean over the
    batch of [(model(x) - truth)²], computed from the output of the model
    at the weights before the update; the gradient is taken of that same
    mean squared error as a function of the weights; and the weights are
    replaced by the result of one [apply_gradients]: one update is
    counted. *)
Theorem train_step_one_update_returns_mse
    (x : array2) (truth : array) (optimizer : Opt) (s : Session (G := G)) :
  length truth = length x ->
  let gradients :=
    tape_gradient
      (fun w => match recorded_loss x truth w with
                | Some l => l
                | None => None
                end) (weights s) in
  (forall w, recorded_loss x truth w =
             Some (mean_squared_error (output_column w true x) truth)) /\
  column0 (model_call (weights s) true x)
    = Some (output_column (weights s) true x) /\
  exists (optimizer' : Opt) (s' : Session),
    train_step x truth optimizer s =
      Some (mean_squared_error (output_column (weights s) true x) truth,
            optimizer', s') /\
    (optimizer', weights s') = apply_gradients optimizer gradients (weights s) /\
    updates s' = S (updates s) /\
    rng s' = rng s.
Proof.
  intros Hl gradients. split; [|split].
  - intros w. now apply recorded_loss_eq.
  - apply output_column_eq.
  - do 2 eexists. split; [apply (train_step_eq x truth optimizer s Hl)|].
    cbn [weights updates rng]. fold gradients.
    split; [|split; reflexivity].
    now destruct (apply_gradients optimizer gradients (weights s)).
Qed.

(** C6.  After its training iterations (which complete on every mass
    range) [train_loop] draws one batch of 20000 samples, calls the model
    with [training=False] on the weights the training left, and changes
    neither the weights nor the count of updates; the predictions it
    returns are the outputs rescaled by [scale_target(., rescale=True)];
    the relative errors are [(pred - truth) / truth], sample by sample;
    the number it prints is 100 times the fraction of the 20000 samples
    whose relative error has absolute value strictly below 0.10.  Where
    the model returns finite numbers the predictions are
    [output * target_sigma + target_mu] and the fraction is that of the
    samples with [|(pred - truth) / truth| < 0.10]; where it does not
    (its weights are [nan]) every prediction is [nan] and the number
    printed is 0.  The arithmetic of the test is over the real numbers. *)
Theorem train_loop_evaluation
    (fuel n_iterations : nat) (learning_rate : R) (s : Session (G := G)) :
  exists (optimizer1 : Opt) (s1 : Session) (vec : array2) (masses : array)
         (g' : G) (outputs : list (option R)) (ev : EvaluationFloat),
    training_iterations ds fuel n_iterations (Adam learning_rate) s
      = Some (optimizer1, s1) /\
    updates s1 = (updates s + n_iterations)%nat /\
    get_batch ds fuel test_size (rng s1) = Some (vec, masses, g') /\
    length vec = test_size /\ length masses = test_size /\
    train_loop ds fuel n_iterations learning_rate s =
      Some (ev, {| weights := weights s1; rng := g'; updates := updates s1 |}) /\
    model_outputs (weights s1) vec = Some outputs /\
    pred_float ev = map (rescale_float ds) outputs /\
    truth_float ev = masses /\
    rel_err_float ev =
      map2 divide_float (map2 minus_float (pred_float ev) masses) masses /\
    printed_float ev =
      Some (100 * (INR (count_true (abs_lt (rel_err_float ev) 0.10))
                   / INR test_size)) /\
    if finite_outputs (weights s1)
    then
      column0 (model_call (weights s1) false vec)
        = Some (output_column (weights s1) false vec) /\
      outputs = map Some (output_column (weights s1) false vec) /\
      pred_float ev =
        map (fun out => Some (out * target_sigma ds + target_mu ds))
            (output_column (weights s1) false vec) /\
      printed_float ev =
        Some (100 * fraction_below 0.10
                      (map (fun out => out * target_sigma ds + target_mu ds)
                           (output_column (weights s1) false vec))
                      masses)
    else
      outputs = repeat None test_size /\
      pred_float ev = repeat None test_size /\
      rel_err_float ev = repeat None test_size /\
      printed_float ev = Some 0.
Proof.
  destruct (training_iterations_total ds fuel n_iterations
              (Adam learning_rate) s) as (o1 & s1 & Htrain & Hup).
  destruct (evaluation_float_eq ds fuel s1) as (Hp & He & Hev).
  cbv zeta in Hp, He, Hev.
  destruct (drawn_batch_shape test_size (min_p ds) (max_p ds) (min_m ds)
              (max_m ds) (cartesian ds) (rng s1)) as (Hl & _ & Hm).
  set (vec := drawn_batch test_size (min_p ds) (max_p ds) (min_m ds)
                (max_m ds) (cartesian ds) (rng s1)) in *.
  set (masses := fst (drawn_m test_size (min_p ds) (max_p ds) (min_m ds)
                        (max_m ds) (rng s1))) in *.
  exists o1, s1, vec, masses. do 3 eexists.
  split; [exact Htrain|]. split; [exact Hup|].
  split; [apply get_batch_eq|]. split; [exact Hl|]. split; [exact Hm|].
  split; [unfold train_loop; rewrite Htrain; exact Hev|].
  split; [apply model_outputs_eq|].
  cbn [pred_float truth_float rel_err_float printed_float].
  do 4 (split; [reflexivity|]).
  unfold test_outputs.
  destruct (finite_outputs (weights s1)).
  - split; [apply output_column_eq|]. split; [reflexivity|].
    assert (Hpred : map (rescale_float ds)
                      (map Some (output_column (weights s1) false vec)) =
                    map Some (map (fun out => out * target_sigma ds
                                              + target_mu ds)
                                (output_column (weights s1) false vec))).
    { rewrite !map_map. reflexivity. }
    split; [rewrite map_map; reflexivity|].
    rewrite Hpred, rel_err_float_finite. f_equal. f_equal.
    destruct (output_column_eq (weights s1) false vec) as [_ Hlen].
    unfold fraction_below. rewrite length_map, Hlen, Hl.
    rewrite count_below by (rewrite length_map; congruence).
    reflexivity.
  - rewrite Hl. split; [reflexivity|].
    assert (Hpred : map (rescale_float ds) (repeat None test_size)
                    = repeat None test_size) by apply map_repeat.
    split; [exact Hpred|]. rewrite Hpred.
    rewrite (rel_err_float_nan test_size masses Hm).
    split; [reflexivity|].
    rewrite abs_lt_nan, count_true_repeat_false. f_equal.
    cbn [INR]. unfold Rdiv. rewrite Rmult_0_l. apply Rmult_0_r.
Qed.

End TrainingClaims.

Section TrainingRuns.
Import Concrete.

(** One train step of the one-weight model on a batch of one sample. *)
Lemma train_step_one_update_witness :
  length [1] = length [[3; 0; 0; 4]] /\
  exists (optimizer' : R * nat) (s' : Session),
    train_step [[3; 0; 0; 4]] [1] (Adam 0.5) session0 =
      Some (mean_squared_error (output_column 1 true [[3; 0; 0; 4]]) [1],
            optimizer', s') /\
    updates s' = 1%nat.
Proof.
  assert (Hl : length [1] = length [[3; 0; 0; 4]]) by reflexivity.
  split; [exact Hl|].
  destruct (train_step_one_update_returns_mse
              [[3; 0; 0; 4]] [1] (Adam 0.5) session0 Hl)
    as (_ & _ & o' & s' & Hstep & _ & Hup & _).
  exists o', s'. split; [exact Hstep | exact Hup].
Defined.

(** On a mass range that is a single value no scaled target is a finite
    number. *)
Lemma single_mass_spec_targets_not_finite (t : R) :
  scale_target single_mass_spec t false = None.
Proof.
  unfold scale_target, divide, target_sigma. cbn [max_m min_m single_mass_spec].
  destruct (Req_dec_T ((5 - 5) / sqrt 12) 0) as [|Hn]; [reflexivity|].
  exfalso. apply Hn. unfold Rdiv. rewrite Rminus_diag. apply Rmult_0_l.
Qed.

(** On such targets a train step of the model whose weight can be [nan]
    leaves [nan] in the weight. *)
Lemma nan_train_step (x : array2) (masses : array) (o : R * nat)
    (s : Session (G := nat * nat) (W := option R))
    (loss : option R) (o' : R * nat) (s' : Session) :
  masses <> [] ->
  @train_step_float _ _ _ _ NanModel x
    (map (fun t => scale_target single_mass_spec t false) masses) o s
    = Some (loss, o', s') ->
  weights s' = None.
Proof.
  intros Hne. unfold train_step_float.
  assert (Hgrad : forall w : option R,
             match @recorded_loss_float _ _ _ NanModel x
                     (map (fun t => scale_target single_mass_spec t false)
                          masses) w with
             | Some l => l
             | None => None
             end = None).
  { intros w. unfold recorded_loss_float, loss_func_float.
    destruct (column0 _) as [col|]; [|reflexivity].
    destruct masses as [|t masses]; [now contradiction Hne|].
    cbn [map finite_entries]. rewrite single_mass_spec_targets_not_finite.
    destruct (broadcastable _ _); reflexivity. }
  destruct (recorded_loss_float _ _ _) as [l|]; [|discriminate].
  cbn [tape_gradient apply_gradients NanModel]. rewrite Hgrad.
  intros [= _ _ <-]. reflexivity.
Qed.

Lemma nan_training (k : nat) (o : R * nat)
    (s : Session (G := nat * nat) (W := option R))
    (o1 : R * nat) (s1 : Session) :
  @training_iterations _ _ _ _ _ NanModel single_mass_spec 0 (S k) o s
    = Some (o1, s1) ->
  weights s1 = None.
Proof.
  revert o s. induction k as [|k IH]; intros o s.
  - rewrite training_iterations_step, get_batch_eq.
    match goal with
    | |- context [@train_step_float ?a ?b ?c ?d ?e ?x ?t ?o ?s] =>
        destruct (@train_step_float a b c d e x t o s)
          as [[[loss o'] s']|] eqn:Hstep; [|discriminate]
    end.
    cbn [training_iterations].
    intros [= _ <-]. eapply nan_train_step; [|exact Hstep].
    destruct (drawn_batch_shape 64 (min_p single_mass_spec)
                (max_p single_mass_spec) (min_m single_mass_spec)
                (max_m single_mass_spec) (cartesian single_mass_spec) (rng s))
      as (_ & _ & Hm).
    intros Hnil. rewrite Hnil in Hm. discriminate Hm.
  - rewrite training_iterations_step, get_batch_eq.
    match goal with
    | |- context [@train_step_float ?a ?b ?c ?d ?e ?x ?t ?o ?s] =>
        destruct (@train_step_float a b c d e x t o s)
          as [[[loss o'] s']|]; [|discriminate]
    end.
    apply IH.
Qed.

(** The notebook's first run, [train_loop(300, 0.03)], on a fresh session
    of the model that returns finite numbers; and a run of three
    iterations on a mass range that is the single value 5, on the model
    whose weight can be [nan]: the scaled targets are not finite, the
    weight is [nan] after the training, and the test prints 0. *)
Lemma train_loop_evaluation_witness :
  (exists (ev : EvaluationFloat) (s' : Session),
     train_loop notebook_data_spec 0 300 0.03 session0 = Some (ev, s') /\
     updates s' = 300%nat /\
     exists prediction : array,
       pred_float ev = map Some prediction /\
       printed_float ev =
         Some (100 * fraction_below 0.10 prediction (truth_float ev))) /\
  (exists (ev : EvaluationFloat) (s' : Session),
     @train_loop _ _ _ _ _ NanModel NanModelOutputs single_mass_spec
       0 3 0.03 nan_session0 = Some (ev, s') /\
     updates s' = 3%nat /\
     weights s' = None /\
     pred_float ev = repeat None test_size /\
     printed_float ev = Some 0).
Proof.
  split.
  - destruct (train_loop_evaluation notebook_data_spec 0 300 0.03 session0)
      as (o1 & s1 & vec & masses & g' & outputs & ev & _ & Hup & _ & _ & _
          & Hrun & _ & _ & Htruth & _ & _ & Hfin).
    cbn [finite_outputs ScaleModelOutputs] in Hfin.
    destruct Hfin as (_ & _ & Hpred & Hprinted).
    exists ev. eexists. split; [exact Hrun|].
    cbn [updates]. split; [exact Hup|].
    eexists. split; [rewrite Hpred, <- map_map; reflexivity|].
    rewrite Htruth. exact Hprinted.
  - destruct (@train_loop_evaluation _ _ _ _ _ NanModel NanModelOutputs
                single_mass_spec 0 3 0.03 nan_session0)
      as (o1 & s1 & vec & masses & g' & outputs & ev & Htrain & Hup & _ & _
          & _ & Hrun & _ & _ & _ & _ & _ & Hfin).
    pose proof (nan_training 2 _ _ _ _ Htrain) as Hw.
    rewrite Hw in Hfin. cbn [finite_outputs NanModelOutputs] in Hfin.
    destruct Hfin as (_ & Hpred & _ & Hprinted).
    exists ev. eexists. split; [exact Hrun|].
    cbn [updates weights]. split; [exact Hup|]. split; [exact Hw|].
    split; [exact Hpred | exact Hprinted].
Defined.

End TrainingRuns.

(** ** The feature-scaling layer *)

Section FeatureScalingFacts.
Import KerasApi.

Lemma map2_nth {A} (f : R -> R -> A) (a b : array) (j : nat) (d : A) :
  length a = length b -> (j < length a)%nat ->
  nth j (map2 f a b) d = f (nth j a 0) (nth j b 0).
Proof.
  revert b j.
  induction a as [|x a IH]; intros [|y b] j; cbn [length]; try discriminate;
    [lia|].
  intros [= Hl] Hj. rewrite map2_cons. destruct j as [|j]; [reflexivity|].
  cbn [nth]. apply IH; [exact Hl | lia].
Qed.

(** One row of the right width, scaled. *)
Lemma call_row_eq (l : FeatureScaling) (row : array) :
  length (stddevs l) = length (means l) -> length row = length (means l) ->
  call_row l row = Some (map2 divide (map2 Rminus row (means l)) (stddevs l)).
Proof.
  intros Hs Hr. unfold call_row.
  rewrite (broadcast_same_length Rminus) by exact Hr.
  rewrite (broadcast_same_length divide)
    by (rewrite map2_length; congruence).
  reflexivity.
Qed.

Lemma call_eq (l : FeatureScaling) (x : array2) :
  length (stddevs l) = length (means l) ->
  Forall (fun row => length row = length (means l)) x ->
  call l x =
  Some (map (fun row => map2 divide (map2 Rminus row (means l)) (stddevs l)) x).
Proof.
  intros Hs. induction 1 as [|row x Hrow _ IH]; [reflexivity|].
  cbn [call map]. now rewrite (call_row_eq l row Hs Hrow), IH.
Qed.

(** C10.  A [FeatureScaling] layer built from constants [means] and
    [stddevs], applied to a batch whose rows have their width, returns
    entry by entry [(x - means) / stddevs]; it has created no variable, so
    no trainable one, before and after the call; the call leaves [means]
    and [stddevs] as they were given; and a second call on the layer the
    first one leaves returns what a call on the fresh layer returns. *)
Theorem feature_scaling_affine_stateless
    (mu sd : array) (x y : array2) :
  length sd = length mu ->
  Forall (fun row => length row = length mu) x ->
  let layer := init mu sd in
  let out := fst (apply layer x) in
  let layer' := snd (apply layer x) in
  (exists rows : list (list (option R)),
     out = Some rows /\
     length rows = length x /\
     forall i j : nat, (i < length x)%nat -> (j < length mu)%nat ->
       nth j (nth i rows []) None =
       divide (nth j (nth i x []) 0 - nth j mu 0) (nth j sd 0)) /\
  trainable_variables layer = [] /\
  variables layer' = [] /\ trainable_variables layer' = [] /\
  means layer' = mu /\ stddevs layer' = sd /\
  fst (apply layer' y) = fst (apply layer y).
Proof.
  intros Hs Hx layer out layer'.
  split; [|repeat split; reflexivity].
  exists (map (fun row => map2 divide (map2 Rminus row mu) sd) x).
  split; [|split].
  - subst out layer. unfold apply. cbn [fst built init build means stddevs
      trainable variables].
    now rewrite call_eq.
  - apply length_map.
  - intros i j Hi Hj.
    assert (Hrow : length (nth i x []) = length mu).
    { rewrite Forall_forall in Hx. apply Hx. now apply nth_In. }
    rewrite (nth_indep _ [] (map2 divide (map2 Rminus [] mu) sd))
      by (rewrite length_map; exact Hi).
    rewrite (map_nth (fun row => map2 divide (map2 Rminus row mu) sd) x [] i).
    rewrite map2_nth; [| rewrite map2_length; congruence
                       | rewrite map2_length; [lia | congruence]].
    rewrite map2_nth by (congruence || lia). reflexivity.
Qed.

(** The layer with means [3; 5] and standard deviations [1; 2] on the
    batch of the one row [4; 9]. *)
Lemma feature_scaling_witness :
  length [1; 2] = length [3; 5] /\
  Forall (fun row => length row = length [3; 5]) [[4; 9]] /\
  means (snd (apply (init [3; 5] [1; 2]) [[4; 9]])) = [3; 5] /\
  stddevs (snd (apply (init [3; 5] [1; 2]) [[4; 9]])) = [1; 2] /\
  trainable_variables (snd (apply (init [3; 5] [1; 2]) [[4; 9]])) = [] /\
  exists rows : list (list (option R)),
    fst (apply (init [3; 5] [1; 2]) [[4; 9]]) = Some rows /\
    nth 1 (nth 0 rows []) None = divide (9 - 5) 2.
Proof.
  assert (Hs : length [1; 2] = length [3; 5]) by reflexivity.
  assert (Hx : Forall (fun row => length row = length [3; 5]) [[4; 9]])
    by (constructor; [reflexivity | constructor]).
  split; [exact Hs|]. split; [exact Hx|].
  destruct (feature_scaling_affine_stateless [3; 5] [1; 2] [[4; 9]] [] Hs Hx)
    as ((rows & Hout & _ & Hentry) & _ & _ & Htv & Hmu & Hsd & _).
  split; [exact Hmu|]. split; [exact Hsd|]. split; [exact Htv|].
  exists rows. split; [exact Hout|].
  apply (Hentry 0%nat 1%nat); cbn; lia.
Defined.

End FeatureScalingFacts.

(** * Further properties of the code *)

(** ** The sampler: the other basis, the ranges, the loop on its own *)

Section SamplerRanges.
Context {G : Type} `{RandomState G} {A : Float32.Arithmetic}.


Lemma rows_of_paired (row : R -> R -> R -> list R) (P Q S : R -> Prop)
    (q ms az : array) (n : nat) :
  length q = n -> length ms = n -> length az = n ->
  Forall P q -> Forall Q ms -> Forall S az ->
  Forall2 (fun r t => exists a c, r = row a t c /\ P a /\ Q t /\ S c)
          (Float32.rows_of row q ms az) ms.
Proof.
  revert q ms az. induction n as [|n IH]; intros [|a q] [|t ms] [|c az];
    cbn [length]; try discriminate; intros Hq Hm Ha HP HQ HS.
  - constructor.
  - injection Hq as Hq; injection Hm as Hm; injection Ha as Ha.
    inversion HP; inversion HQ; inversion HS; subst.
    cbn [Float32.rows_of]. constructor; [now exists a, c | now apply IH].
Qed.

(** The azimuth cast to float32 lies between the casts of [-pi] and [pi]. *)
Lemma cast_phi_between (n : nat) (min_p max_p min_m max_m : R) (g : G) :
  Forall (fun az => Float32.round32 (- PI) <= az <= Float32.round32 PI)
         (Float32.cast_phi n min_p max_p min_m max_m g).
Proof.
  apply astype_float32_between, uniform_range.
  pose proof PI_RGT_0. lra.
Qed.

Lemma Forall_trivial (a : array) : Forall (fun _ => True) a.
Proof. apply Forall_forall. auto. Qed.


(** X2.  With ordered bounds, in every float32 arithmetic, every Cartesian
    sample is [(e, pt * cos(phi), pt * sin(phi), p * sin(theta0))] for a
    momentum [p] between the float32 casts of [min_p] and [max_p], its
    paired mass [m] between the casts of [min_m] and [max_m] and an
    azimuth [phi] between the casts of [-pi] and [pi], with
    [e = (p * p + m * m) ** 0.5] and [pt = p * cos(theta0)] in float32. *)
Theorem get_data_cartesian_ranges_float32
    (fuel n : nat) (min_p max_p min_m max_m : R) (g : G) :
  min_p <= max_p -> min_m <= max_m ->
  exists (rows : array2) (masses : array) (g' : G),
    Float32.get_data fuel n min_p max_p min_m max_m true g =
      Some (rows, masses, g') /\
    Forall2 (fun row ms => exists mom az,
               row = Float32.cartesian_row mom ms az /\
               Float32.round32 min_p <= mom <= Float32.round32 max_p /\
               Float32.round32 min_m <= ms <= Float32.round32 max_m /\
               Float32.round32 (- PI) <= az <= Float32.round32 PI)
            rows masses.
Proof.
  intros Hp Hm.
  destruct (cast_lengths n min_p max_p min_m max_m g) as (Lq & Lm & La).
  do 3 eexists. split; [apply float32_get_data_eq|].
  apply (rows_of_paired _ _ _ _ _ _ _ n Lq Lm La).
  - apply astype_float32_between. now apply uniform_range.
  - apply astype_float32_between. now apply uniform_range.
  - apply cast_phi_between.
Qed.

(** X3.  A momentum range collapsed to one value [c] still gives a batch
    of [n] samples, in every float32 arithmetic: each has the momentum
    [float32(c)] and is the Cartesian sample of that momentum, its paired
    mass and its azimuth. *)
Theorem get_data_single_momentum_float32
    (fuel n : nat) (c min_m max_m : R) (g : G) :
  exists (rows : array2) (masses : array) (g' : G),
    Float32.get_data fuel n c c min_m max_m true g = Some (rows, masses, g') /\
    length rows = n /\
    length masses = n /\
    Forall2 (fun row ms => exists az,
               row = Float32.cartesian_row (Float32.round32 c) ms az)
            rows masses.
Proof.
  destruct (cast_lengths n c c min_m max_m g) as (Lq & Lm & La).
  do 3 eexists. split; [apply float32_get_data_eq|].
  split; [now apply rows_of_length|]. split; [exact Lm|].
  pose proof (rows_of_paired Float32.cartesian_row
                (fun q => q = Float32.round32 c) (fun _ => True) (fun _ => True)
                _ _ _ n Lq Lm La) as Hrows.
  eapply Forall2_impl; [|apply Hrows].
  - intros row ms (a & az & -> & -> & _ & _). now exists az.
  - unfold Float32.cast_p, drawn_p. rewrite uniform_point.
    unfold Float32.astype_float32. rewrite map_repeat.
    apply Forall_forall. intros x Hx. now apply repeat_spec in Hx.
  - apply Forall_trivial.
  - apply Forall_trivial.
Qed.

End SamplerRanges.

Section SamplerRangeRuns.
Import Concrete.

(** The notebook's ranges on the constant generator, in the arithmetic
    that flushes to zero. *)
Lemma get_data_cartesian_ranges_float32_witness :
  0 <= 200 /\ 0.1 <= 100 /\
  exists (rows : array2) (masses : array) (g' : nat * nat),
    @Float32.get_data _ ConstGen Flushed 0 64 0 200 0.1 100 true
      (0%nat, 0%nat) = Some (rows, masses, g') /\
    Forall2 (fun row ms => exists mom az,
               row = @Float32.cartesian_row Flushed mom ms az /\
               flush 0 <= mom <= flush 200 /\
               flush 0.1 <= ms <= flush 100 /\
               flush (- PI) <= az <= flush PI)
            rows masses.
Proof.
  assert (Hp : 0 <= 200) by lra. assert (Hm : 0.1 <= 100) by lra.
  split; [exact Hp|]. split; [exact Hm|].
  exact (@get_data_cartesian_ranges_float32 _ ConstGen Flushed
           0 64 0 200 0.1 100 (0%nat, 0%nat) Hp Hm).
Defined.

End SamplerRangeRuns.

Section LoopFacts.
Context {G : Type} `{RandomState G}.

Lemma gtb_true (x y : R) : x > y -> gtb x y = true.
Proof. intros Hgt. unfold gtb. destruct (Rgt_dec x y); [reflexivity | contradiction]. Qed.

Lemma gtb_false (x y : R) : x <= y -> gtb x y = false.
Proof. intros Hle. unfold gtb. destruct (Rgt_dec x y); [lra | reflexivity]. Qed.

Lemma assign_masked_length (a : array) (mask : list bool) (values : array) :
  length (assign_masked a mask values) = length a.
Proof.
  revert mask values.
  induction a as [|x a IH]; intros [|[|] mask] values; try reflexivity.
  - destruct values as [|v values]; cbn [assign_masked length]; now rewrite IH.
  - cbn [assign_masked length]. now rewrite IH.
Qed.

(** An entry the mask does not select is not assigned. *)
Lemma assign_masked_keep (a : array) (mask : list bool) (values : array) (i : nat) :
  nth i mask false = false ->
  nth i (assign_masked a mask values) 0 = nth i a 0.
Proof.
  revert mask values i.
  induction a as [|x a IH]; intros [|[|] mask] values i Hi; try reflexivity.
  - destruct i as [|i]; [discriminate|]. cbn [nth] in Hi.
    destruct values as [|v values]; cbn [assign_masked nth]; now apply IH.
  - destruct i as [|i]; [reflexivity|]. cbn [nth] in Hi.
    cbn [assign_masked nth]. now apply IH.
Qed.

Lemma abs_gt_unselected (a : array) (c : R) (i : nat) :
  0 <= c -> Rabs (nth i a 0) <= c -> nth i (abs_gt a c) false = false.
Proof.
  intros Hc. revert i.
  induction a as [|x a IH]; intros [|i] Hi; cbn [abs_gt map nth] in *;
    try reflexivity.
  - now apply gtb_false.
  - now apply IH.
Qed.

(** X4.  Whatever array the loop is entered with and whatever it draws: it
    returns an array of the same length, in which every entry that was
    within the coverage [|eta| <= 2.5] is the entry it was; only entries
    beyond the coverage are ever drawn again. *)
Theorem resample_loop_keeps_in_range
    (fuel : nat) (eta0 : array) (g : G) (k : nat)
    (eta1 : array) (g1 : G) (k1 : nat) :
  resample_loop fuel eta0 g k = Some (eta1, g1, k1) ->
  length eta1 = length eta0 /\
  (forall i : nat, Rabs (nth i eta0 0) <= 2.5 -> nth i eta1 0 = nth i eta0 0) /\
  (k <= k1)%nat.
Proof.
  revert eta0 g k.
  induction fuel as [|fuel IH]; intros eta0 g k; cbn [resample_loop];
    destruct (gtb_nan (mean_bool (abs_gt eta0 2.5)) 0.05) eqn:Hc;
    try discriminate; try (intros [= <- _ <-]; auto).
  destruct (Random.normal 0 2.5 _ g) as [values g2]. intros Hrun.
  destruct (IH _ _ _ Hrun) as (Hlen & Hkeep & Hk).
  rewrite assign_masked_length in Hlen.
  split; [exact Hlen|]. split; [|lia].
  intros i Hi.
  assert (Hstep : nth i (assign_masked eta0 (abs_gt eta0 2.5) values) 0
                  = nth i eta0 0).
  { apply assign_masked_keep. apply abs_gt_unselected; [lra | exact Hi]. }
  rewrite <- Hstep. apply Hkeep. now rewrite Hstep.
Qed.

(** Assigning values that are all beyond [c] to the entries beyond [c]
    leaves the mask as it was. *)
Lemma assign_masked_mask_stable (c : R) (a values : array) :
  Forall (fun v => gtb (Rabs v) c = true) values ->
  (count_true (abs_gt a c) <= length values)%nat ->
  abs_gt (assign_masked a (abs_gt a c) values) c = abs_gt a c.
Proof.
  revert values.
  induction a as [|x a IH]; intros values Hall Hcount; [reflexivity|].
  cbn [abs_gt map] in *. fold (abs_gt a c) in *.
  destruct (gtb (Rabs x) c) eqn:Hx.
  - unfold count_true in Hcount. cbn [filter length] in Hcount.
    fold (count_true (abs_gt a c)) in Hcount.
    destruct values as [|v values]; [cbn in Hcount; lia|].
    inversion Hall as [|? ? Hv Hrest]; subst.
    cbn [assign_masked]. unfold abs_gt at 1. cbn [map].
    fold (abs_gt (assign_masked a (abs_gt a c) values) c).
    rewrite Hv. f_equal.
    apply IH; [exact Hrest | cbn [length] in Hcount; lia].
  - cbn [assign_masked]. unfold abs_gt at 1. cbn [map].
    fold (abs_gt (assign_masked a (abs_gt a c) values) c).
    rewrite Hx. f_equal.
    apply IH; [exact Hall|].
    unfold count_true in Hcount. cbn [filter] in Hcount. exact Hcount.
Qed.

End LoopFacts.

Section LoopFloat32.
Context {G : Type} `{RandomState G} {A : Float32.Arithmetic}.

(** A normal deviate of magnitude at least 1.2 gives a redraw [2.5 * z]
    of magnitude at least 3, and so does its cast to float32. *)
Lemma normal_beyond (n : nat) (g : G) :
  (forall g0, 6 / 5 <= Rabs (fst (standard_normal g0))) ->
  length (Float32.astype_float32 (fst (Random.normal 0 2.5 n g))) = n /\
  Forall (fun v => gtb (Rabs v) 2.5 = true)
         (Float32.astype_float32 (fst (Random.normal 0 2.5 n g))).
Proof.
  intros Hz. split; [rewrite astype_float32_length; apply draws_length|].
  unfold Random.normal, Float32.astype_float32. revert g.
  induction n as [|n IH]; intros g; [constructor|].
  cbn [Random.draws]. specialize (Hz g).
  destruct (standard_normal g) as [z g1]. cbn [fst] in Hz.
  specialize (IH g1). destruct (Random.draws _ n g1) as [xs g2].
  cbn [fst map] in *. constructor; [|exact IH].
  apply gtb_true.
  pose proof (round32_integer 3 ltac:(reflexivity)) as H3.
  pose proof (round32_integer (-3) ltac:(reflexivity)) as H3'.
  revert Hz. unfold Rabs at 1. destruct (Rcase_abs z) as [Hneg|Hpos]; intros Hz.
  - assert (Hle : Float32.round32 (0 + 2.5 * z) <= -3).
    { rewrite <- H3'. apply Float32.round32_monotone. lra. }
    rewrite Rabs_left by lra. lra.
  - assert (Hle : 3 <= Float32.round32 (0 + 2.5 * z)).
    { rewrite <- H3. apply Float32.round32_monotone. lra. }
    rewrite Rabs_pos_eq by lra. lra.
Qed.

(** X5.  The loop has no bound of its own: on a generator whose normal
    deviates all have magnitude at least 1.2 (so that every redraw, and
    the float32 stored for it, has magnitude at least 3 and falls beyond
    the coverage again), entered with an array that fails the 5% test, it
    does not return within any number of runs of its body, in every
    float32 arithmetic. *)
Theorem resample_loop_never_exits_float32
    (fuel : nat) (eta0 : array) (g : G) (k : nat) :
  (forall g0, 6 / 5 <= Rabs (fst (standard_normal g0))) ->
  gtb_nan (mean_bool (abs_gt eta0 2.5)) 0.05 = true ->
  Float32.resample_loop fuel eta0 g k = None.
Proof.
  intros Hz. revert eta0 g k.
  induction fuel as [|fuel IH]; intros eta0 g k Hc;
    cbn [Float32.resample_loop]; rewrite Hc; [reflexivity|].
  destruct (normal_beyond (count_true (abs_gt eta0 2.5)) g Hz) as [Hlen Hall].
  destruct (Random.normal 0 2.5 _ g) as [values g2]. cbn [fst] in Hlen, Hall.
  apply IH. rewrite assign_masked_mask_stable; [exact Hc | exact Hall | lia].
Qed.

End LoopFloat32.

Section LoopRuns.
Import Concrete.

Lemma coverage_test_fails_on_3 :
  gtb_nan (mean_bool (abs_gt [3] 2.5)) 0.05 = true.
Proof.
  cbn [abs_gt map]. rewrite (gtb_true (Rabs 3) 2.5)
    by (rewrite Rabs_pos_eq; lra).
  rewrite mean_bool_cons. cbn. apply gtb_true. lra.
Qed.

(** On the constant generator (normal deviates 2, redraws 5) the loop
    entered with [[3]] has not returned after a thousand runs, in the
    arithmetic that flushes to zero. *)
Lemma resample_loop_never_exits_float32_witness :
  (forall g0 : nat * nat, 6 / 5 <= Rabs (fst (standard_normal g0))) /\
  gtb_nan (mean_bool (abs_gt [3] 2.5)) 0.05 = true /\
  @Float32.resample_loop _ ConstGen Flushed 1000 [3] (0%nat, 0%nat) 0 = None.
Proof.
  assert (Hz : forall g0 : nat * nat, 6 / 5 <= Rabs (fst (standard_normal g0))).
  { intros g0. cbn. rewrite Rabs_pos_eq; lra. }
  split; [exact Hz|]. split; [exact coverage_test_fails_on_3|].
  exact (@resample_loop_never_exits_float32 _ ConstGen Flushed
           1000 [3] (0%nat, 0%nat) 0%nat Hz coverage_test_fails_on_3).
Defined.

(** On the central generator (redraws 1.25) the loop entered with
    [[3; 1]] runs its body once: the 3 is drawn again, the 1 is kept. *)
Lemma resample_loop_central_run :
  resample_loop 1 [3; 1] tt 0 = Some ([0 + 2.5 * (1 / 2); 1], tt, 1%nat).
Proof.
  assert (H3 : gtb (Rabs 3) 2.5 = true)
    by (apply gtb_true; rewrite Rabs_pos_eq; lra).
  assert (H1 : gtb (Rabs 1) 2.5 = false)
    by (apply gtb_false; rewrite Rabs_pos_eq; lra).
  assert (Hd : gtb (Rabs (0 + 2.5 * (1 / 2))) 2.5 = false)
    by (apply gtb_false; rewrite Rabs_pos_eq; lra).
  cbn [resample_loop abs_gt map]. rewrite H3, H1.
  rewrite mean_bool_cons.
  assert (Hin : gtb_nan (Some (INR (count_true [true; false])
                               / INR (length [true; false]))) 0.05 = true).
  { cbn. apply gtb_true. lra. }
  rewrite Hin. cbn [count_true filter length Random.normal Random.draws
                    standard_normal CentralGen assign_masked].
  cbn [abs_gt map]. rewrite Hd, H1. rewrite mean_bool_cons.
  assert (Hout : gtb_nan (Some (INR (count_true [false; false])
                                / INR (length [false; false]))) 0.05 = false).
  { cbn. apply gtb_false. lra. }
  rewrite Hout. reflexivity.
Qed.

Lemma resample_loop_keeps_in_range_witness :
  resample_loop 1 [3; 1] tt 0 = Some ([0 + 2.5 * (1 / 2); 1], tt, 1%nat) /\
  length [0 + 2.5 * (1 / 2); 1] = length [3; 1] /\
  (forall i : nat, Rabs (nth i [3; 1] 0) <= 2.5 ->
     nth i [0 + 2.5 * (1 / 2); 1] 0 = nth i [3; 1] 0) /\
  (0 <= 1)%nat.
Proof.
  split; [exact resample_loop_central_run|].
  exact (resample_loop_keeps_in_range 1 [3; 1] tt 0 _ tt 1
           resample_loop_central_run).
Defined.

End LoopRuns.

(** ** The target scaling: the other round trip, its range, its order *)

Section ScalingFacts.

Lemma sqrt_12_eq : sqrt 12 = 2 * sqrt 3.
Proof.
  replace 12 with (2 * 2 * 3) by lra.
  rewrite sqrt_mult by lra. now rewrite sqrt_square by lra.
Qed.

Lemma sqrt_3_pos : 0 < sqrt 3.
Proof. apply sqrt_lt_R0. lra. Qed.

(** Scaling in closed form on a range that is not a single value. *)
Lemma scale_target_value (ds : DataSpec) (t : R) :
  min_m ds <> max_m ds ->
  scale_target ds t false =
  Some ((2 * t - (min_m ds + max_m ds)) * sqrt 3 / (max_m ds - min_m ds)).
Proof.
  intros Hne. rewrite scale_target_forward by now apply target_sigma_nonzero.
  f_equal. unfold target_mu, target_sigma. rewrite sqrt_12_eq.
  replace 0.5 with (/ 2) by lra.
  pose proof sqrt_3_pos. field. split; lra.
Qed.

(** X8.  Over real arithmetic, rescaling a value and scaling the result
    returns the value exactly, on every mass range that is not a single
    value: the two directions of [scale_target] are inverse to each other
    on both sides.  (In floating point the round trip holds up to
    rounding.) *)
Theorem scale_target_rescale_then_scale (ds : DataSpec) (v : R) :
  min_m ds <> max_m ds ->
  exists physical : R,
    scale_target ds v true = Some physical /\
    scale_target ds physical false = Some v.
Proof.
  intros Hne. pose proof (target_sigma_nonzero ds Hne) as Hs.
  eexists. split; [reflexivity|].
  rewrite scale_target_forward by exact Hs. f_equal. field. exact Hs.
Qed.

(** X9.  Over real arithmetic, on a mass range with [min_m < max_m],
    scaling sends [min_m] to [- sqrt 3], the midpoint to 0 and [max_m] to
    [sqrt 3], and every mass of the range into [[- sqrt 3, sqrt 3]].  (In
    floating point the ends are met up to rounding.) *)
Theorem scale_target_range (ds : DataSpec) (t : R) :
  min_m ds < max_m ds -> min_m ds <= t <= max_m ds ->
  scale_target ds (min_m ds) false = Some (- sqrt 3) /\
  scale_target ds (target_mu ds) false = Some 0 /\
  scale_target ds (max_m ds) false = Some (sqrt 3) /\
  exists scaled : R,
    scale_target ds t false = Some scaled /\ - sqrt 3 <= scaled <= sqrt 3.
Proof.
  intros Hlt Ht. assert (Hne : min_m ds <> max_m ds) by lra.
  pose proof sqrt_3_pos as H3.
  rewrite !scale_target_value by exact Hne.
  repeat split.
  - f_equal. field. lra.
  - f_equal. unfold target_mu. replace 0.5 with (/ 2) by lra. field. lra.
  - f_equal. field. lra.
  - eexists. split; [reflexivity|].
    assert (Hd : 0 < max_m ds - min_m ds) by lra.
    split.
    + apply (Rmult_le_reg_r (max_m ds - min_m ds)); [exact Hd|].
      unfold Rdiv. rewrite Rmult_assoc, Rinv_l, Rmult_1_r by lra. nra.
    + apply (Rmult_le_reg_r (max_m ds - min_m ds)); [exact Hd|].
      unfold Rdiv. rewrite Rmult_assoc, Rinv_l, Rmult_1_r by lra. nra.
Qed.

(** X10.  Over real arithmetic, on a mass range with [min_m < max_m],
    scaling keeps the order of the masses: a strictly larger mass has a
    strictly larger scaled value.  (In floating point two masses that are
    close enough have the same scaled value.) *)
Theorem scale_target_increasing (ds : DataSpec) (a b : R) :
  min_m ds < max_m ds -> a < b ->
  exists sa sb : R,
    scale_target ds a false = Some sa /\
    scale_target ds b false = Some sb /\
    sa < sb.
Proof.
  intros Hlt Hab. pose proof (target_sigma_pos ds Hlt) as Hs.
  do 2 eexists.
  split; [apply scale_target_forward; lra|].
  split; [apply scale_target_forward; lra|].
  unfold Rdiv. apply Rmult_lt_compat_r; [now apply Rinv_0_lt_compat | lra].
Qed.

(** X11.  On a mass range that is a single value the scaled target of every
    value is not a finite number, while rescaling returns that single
    value for every input. *)
Theorem scale_target_single_mass (ds : DataSpec) (v : R) :
  min_m ds = max_m ds ->
  scale_target ds v false = None /\
  scale_target ds v true = Some (min_m ds).
Proof.
  intros Heq.
  assert (Hs : target_sigma ds = 0).
  { unfold target_sigma. rewrite Heq. unfold Rdiv. ring. }
  unfold scale_target, divide. rewrite Hs. split.
  - destruct (Req_dec_T 0 0) as [|Hne]; [reflexivity | now contradiction Hne].
  - f_equal. unfold target_mu. rewrite <- Heq. lra.
Qed.

Lemma scale_target_rescale_then_scale_witness :
  min_m notebook_data_spec <> max_m notebook_data_spec /\
  exists physical : R,
    scale_target notebook_data_spec 2 true = Some physical /\
    scale_target notebook_data_spec physical false = Some 2.
Proof.
  assert (Hne : min_m notebook_data_spec <> max_m notebook_data_spec)
    by (simpl; lra).
  split; [exact Hne|].
  exact (scale_target_rescale_then_scale notebook_data_spec 2 Hne).
Defined.

Lemma scale_target_range_witness :
  min_m notebook_data_spec < max_m notebook_data_spec /\
  min_m notebook_data_spec <= 50 <= max_m notebook_data_spec /\
  scale_target notebook_data_spec 0.1 false = Some (- sqrt 3) /\
  scale_target notebook_data_spec 100 false = Some (sqrt 3) /\
  exists scaled : R,
    scale_target notebook_data_spec 50 false = Some scaled /\
    - sqrt 3 <= scaled <= sqrt 3.
Proof.
  assert (Hlt : min_m notebook_data_spec < max_m notebook_data_spec)
    by (simpl; lra).
  assert (Ht : min_m notebook_data_spec <= 50 <= max_m notebook_data_spec)
    by (simpl; lra).
  split; [exact Hlt|]. split; [exact Ht|].
  destruct (scale_target_range notebook_data_spec 50 Hlt Ht)
    as (Hmin & _ & Hmax & Hin).
  split; [exact Hmin|]. split; [exact Hmax | exact Hin].
Defined.

Lemma scale_target_increasing_witness :
  min_m notebook_data_spec < max_m notebook_data_spec /\ 10 < 20 /\
  exists sa sb : R,
    scale_target notebook_data_spec 10 false = Some sa /\
    scale_target notebook_data_spec 20 false = Some sb /\
    sa < sb.
Proof.
  assert (Hlt : min_m notebook_data_spec < max_m notebook_data_spec)
    by (simpl; lra).
  assert (Hab : 10 < 20) by lra.
  split; [exact Hlt|]. split; [exact Hab|].
  exact (scale_target_increasing notebook_data_spec 10 20 Hlt Hab).
Defined.

(** A range with both mass bounds at 5. *)
Lemma scale_target_single_mass_witness :
  min_m {| min_p := 0; max_p := 200; min_m := 5; max_m := 5; cartesian := true |}
  = max_m {| min_p := 0; max_p := 200; min_m := 5; max_m := 5; cartesian := true |} /\
  scale_target
    {| min_p := 0; max_p := 200; min_m := 5; max_m := 5; cartesian := true |}
    7 false = None.
Proof.
  split; [reflexivity|].
  exact (proj1 (scale_target_single_mass
                  {| min_p := 0; max_p := 200; min_m := 5; max_m := 5;
                     cartesian := true |} 7 eq_refl)).
Defined.

End ScalingFacts.

(** ** The loss *)

Section LossFacts.

Lemma sum_squares_nonneg (d : array) : 0 <= sum (map (fun x => x * x) d).
Proof.
  induction d as [|x d IH]; cbn [map sum fold_right]; [lra|].
  fold (sum (map (fun x => x * x) d)). nra.
Qed.

Lemma mean_squares_nonneg (d : array) (l : R) :
  mean (map (fun x => x * x) d) = Some l -> 0 <= l.
Proof.
  destruct d as [|x d]; [discriminate|].
  remember (map (fun x => x * x) (x :: d)) as sq eqn:Hsq.
  assert (Hlen : (0 < length sq)%nat) by (subst sq; cbn [map length]; lia).
  pose proof (sum_squares_nonneg (x :: d)) as Hsum. rewrite <- Hsq in Hsum.
  destruct sq as [|y sq]; [cbn in Hlen; lia|].
  unfold mean. intros [= <-].
  apply Rmult_le_pos; [exact Hsum|].
  apply Rlt_le, Rinv_0_lt_compat.
  change (0 < INR (length (y :: sq))). apply lt_0_INR. exact Hlen.
Qed.

(** X12.  The loss is never negative, whatever the shapes. *)
Theorem loss_func_nonnegative (pred truth : array) (l : R) :
  loss_func pred truth = Some (Some l) -> 0 <= l.
Proof.
  unfold loss_func. destruct (broadcast Rminus pred truth) as [d|];
    [|discriminate].
  intros [= Hmean]. now apply mean_squares_nonneg in Hmean.
Qed.

Lemma sum_squares_zero (a b : array) :
  length a = length b ->
  sum (map (fun x => x * x) (map2 Rminus a b)) = 0 -> a = b.
Proof.
  revert b. induction a as [|x a IH]; intros [|y b]; cbn [length];
    try discriminate; [reflexivity|].
  intros [= Hl]. rewrite map2_cons. cbn [map sum fold_right].
  fold (sum (map (fun x => x * x) (map2 Rminus a b))).
  pose proof (sum_squares_nonneg (map2 Rminus a b)) as Hrest.
  intros Hsum.
  assert (Hx : x = y) by nra.
  f_equal; [exact Hx|]. apply IH; [exact Hl | nra].
Qed.

Lemma sum_squares_self (a : array) :
  sum (map (fun x => x * x) (map2 Rminus a a)) = 0.
Proof.
  induction a as [|x a IH]; [reflexivity|].
  rewrite map2_cons. cbn [map sum fold_right].
  fold (sum (map (fun x => x * x) (map2 Rminus a a))). rewrite IH. ring.
Qed.

Lemma mean_nonempty (l : array) :
  (0 < length l)%nat -> mean l = Some (sum l / INR (length l)).
Proof. destruct l; [cbn; lia | reflexivity]. Qed.

(** X13.  Over real arithmetic, on a batch that is not empty, with one
    target per prediction, the loss is zero exactly when every prediction
    equals its target.  (In floating point the square of a small
    difference can be rounded to zero.) *)
Theorem loss_func_zero_iff_equal (pred truth : array) :
  length pred = length truth -> pred <> [] ->
  (loss_func pred truth = Some (Some 0) <-> pred = truth).
Proof.
  intros Hl Hne. unfold loss_func.
  rewrite broadcast_same_length by exact Hl.
  assert (Hlen : (0 < length (map (fun x : R => (x * x)%R)
                               (map2 Rminus pred truth)))%nat).
  { rewrite length_map, map2_length by exact Hl.
    destruct pred; [now contradiction Hne | cbn; lia]. }
  rewrite (mean_nonempty _ Hlen).
  apply lt_0_INR in Hlen.
  split.
  - intros [= Hz]. apply sum_squares_zero; [exact Hl|].
    apply (Rmult_eq_compat_r
             (INR (length (map (fun x => x * x) (map2 Rminus pred truth))))) in Hz.
    unfold Rdiv in Hz. rewrite Rmult_assoc, Rinv_l, Rmult_1_r, Rmult_0_l in Hz;
      lra.
  - intros <-. rewrite sum_squares_self. do 2 f_equal. unfold Rdiv. ring.
Qed.

Lemma squares_swap (a b : array) :
  map (fun x => x * x) (map2 Rminus a b) = map (fun x => x * x) (map2 Rminus b a).
Proof.
  revert b. induction a as [|x a IH]; intros [|y b]; try reflexivity.
  rewrite !map2_cons. cbn [map]. rewrite IH. f_equal. ring.
Qed.

Lemma squares_against (x : R) (b : array) :
  map (fun d => d * d) (map (Rminus x) b) =
  map (fun d => d * d) (map (fun y => y - x) b).
Proof. rewrite !map_map. apply map_ext. intros y. ring. Qed.

(** X14.  The loss does not tell prediction from target: exchanging the two
    arguments gives the same result, shape errors and the broadcast of a
    single value included. *)
Theorem loss_func_symmetric (a b : array) :
  loss_func a b = loss_func b a.
Proof.
  unfold loss_func, broadcast.
  destruct (Nat.eqb (length a) (length b)) eqn:E;
    rewrite (Nat.eqb_sym (length b)), E.
  - now rewrite squares_swap.
  - destruct a as [|x [|x' a]]; destruct b as [|y [|y' b]];
      cbn [length Nat.eqb] in E; try discriminate; try reflexivity.
    + now rewrite squares_against.
    + now rewrite squares_against.
Qed.

(** X15.  The loss is a shape error exactly when the two lengths differ and
    neither is 1; on two empty arrays it is not an error but [nan]. *)
Theorem loss_func_shape_error (pred truth : array) :
  (loss_func pred truth = None <->
   length pred <> length truth /\ length pred <> 1%nat /\ length truth <> 1%nat)
  /\ loss_func [] [] = Some None.
Proof.
  split; [|reflexivity].
  unfold loss_func, broadcast.
  destruct (Nat.eqb (length pred) (length truth)) eqn:E.
  - apply Nat.eqb_eq in E. split; [discriminate | intros [Hne _]; contradiction].
  - apply Nat.eqb_neq in E.
    destruct pred as [|x [|x' pred]]; destruct truth as [|y [|y' truth]];
      cbn [length] in *; split; intros Hyp;
      try discriminate; try reflexivity; try lia;
      try (repeat split; lia).
Qed.

Lemma loss_func_run : loss_func [3; 5] [1; 5] = Some (Some 2).
Proof.
  unfold loss_func, broadcast. cbn [length Nat.eqb map2 combine map fst snd mean].
  do 2 f_equal. cbn. field.
Qed.

Lemma loss_func_nonnegative_witness :
  loss_func [3; 5] [1; 5] = Some (Some 2) /\ 0 <= 2.
Proof.
  split; [exact loss_func_run|].
  exact (loss_func_nonnegative [3; 5] [1; 5] 2 loss_func_run).
Defined.

Lemma loss_func_zero_iff_equal_witness :
  length [3; 5] = length [1; 5] /\ [3; 5] <> @nil R /\
  (loss_func [3; 5] [1; 5] = Some (Some 0) <-> [3; 5] = [1; 5]).
Proof.
  assert (Hl : length [3; 5] = length [1; 5]) by reflexivity.
  assert (Hne : [3; 5] <> @nil R) by discriminate.
  split; [exact Hl|]. split; [exact Hne|].
  exact (loss_func_zero_iff_equal [3; 5] [1; 5] Hl Hne).
Defined.

End LossFacts.

(** ** The training step and the metric of the test *)

Section StepAndMetricFacts.
Context {G : Type} `{RandomState G}.
Context {W Opt Grad : Type} `{Framework W Opt Grad}.
Variable ds : DataSpec.

Lemma broadcast_single_target (pred : array) (t : R) :
  exists d : array,
    broadcast Rminus pred [t] = Some d /\
    map (fun x => x * x) d = map (fun q => (q - t) * (q - t)) pred.
Proof.
  unfold broadcast.
  destruct pred as [|q [|q' pred]]; cbn [length Nat.eqb].
  - exists []. split; reflexivity.
  - exists [q - t]. split; reflexivity.
  - eexists. split; [reflexivity|]. now rewrite map_map.
Qed.

(** X16.  A target vector with a single value is not rejected for a batch of any
    size: the value is compared with every prediction, the loss is the
    mean of those squared differences, and the update is made. *)
Theorem train_step_single_target
    (x : array2) (t : R) (optimizer : Opt) (s : Session (G := G)) :
  exists (optimizer' : Opt) (s' : Session),
    train_step x [t] optimizer s =
      Some (mean (map (fun q => (q - t) * (q - t))
                      (output_column (weights s) true x)),
            optimizer', s') /\
    updates s' = S (updates s).
Proof.
  unfold train_step, recorded_loss at 1, loss_func.
  destruct (output_column_eq (weights s) true x) as [Hc _]. rewrite Hc.
  destruct (broadcast_single_target (output_column (weights s) true x) t)
    as (d & Hd & Hsq).
  rewrite Hd, Hsq.
  destruct (apply_gradients optimizer _ (weights s)) as [o w].
  do 2 eexists. split; reflexivity.
Qed.

Lemma fraction_below_bounds (tol : R) (pred truth : array) :
  (0 < length pred)%nat ->
  0 <= fraction_below tol pred truth <= 1.
Proof.
  intros Hlen. unfold fraction_below.
  set (hits := filter _ _).
  assert (Hle : (length hits <= length pred)%nat).
  { subst hits. etransitivity; [apply filter_length_le|].
    rewrite length_combine. apply Nat.le_min_l. }
  pose proof (lt_0_INR _ Hlen) as Hpos.
  pose proof (pos_INR (length hits)) as Hnn.
  apply le_INR in Hle.
  split.
  - apply Rmult_le_pos; [exact Hnn|]. now apply Rlt_le, Rinv_0_lt_compat.
  - apply (Rmult_le_reg_r (INR (length pred))); [exact Hpos|].
    unfold Rdiv. rewrite Rmult_assoc, Rinv_l, Rmult_1_r, Rmult_1_l; lra.
Qed.

(** X17.  The test always prints a number between 0 and 100. *)
Theorem evaluation_prints_a_percentage (fuel : nat) (s : Session (G := G)) :
  exists (ev : Evaluation) (s' : Session) (shown : R),
    evaluation ds fuel s = Some (ev, s') /\
    printed ev = Some shown /\ 0 <= shown <= 100.
Proof.
  destruct (evaluation_eq ds fuel s) as (Hp & _ & _ & Hev).
  cbv zeta in Hp, Hev.
  do 3 eexists. split; [exact Hev|]. cbn [printed]. split; [reflexivity|].
  match goal with
  | |- 0 <= 100 * fraction_below ?tol ?a ?b <= 100 =>
      pose proof (fraction_below_bounds tol a b) as Hb
  end.
  rewrite Hp in Hb. specialize (Hb test_size_pos). lra.
Qed.

(** For a positive truth the relative error is below 10% in absolute value
    exactly when the prediction lies strictly between 90% and 110% of the
    truth. *)
Lemma relative_error_band (prediction t : R) :
  0 < t ->
  relative_error_below 0.10 prediction t = within_ten_percent prediction t.
Proof.
  intros Ht. unfold relative_error_below, within_ten_percent, ltb.
  destruct (Req_dec_T t 0) as [|_]; [lra|].
  set (d := (prediction - t) / t).
  assert (Hp : prediction = t + d * t) by (subst d; field; lra).
  destruct (Rlt_dec (Rabs d) 0.10) as [Habs|Habs].
  - apply Rabs_def2 in Habs.
    destruct (Rlt_dec (0.9 * t) prediction) as [|Hn]; [|exfalso; nra].
    destruct (Rlt_dec prediction (1.1 * t)) as [|Hn]; [reflexivity | exfalso; nra].
  - destruct (Rlt_dec (0.9 * t) prediction) as [Hlo|]; [|reflexivity].
    destruct (Rlt_dec prediction (1.1 * t)) as [Hhi|]; [|reflexivity].
    exfalso. apply Habs. apply Rabs_def1; nra.
Qed.

(** X18.  On a mass range with [0 < min_m <= max_m] the number the test prints is
    100 times the share of the 20000 samples whose prediction lies
    strictly between 90% and 110% of the true mass. *)
Theorem evaluation_counts_ten_percent_band (fuel : nat) (s : Session (G := G)) :
  0 < min_m ds -> min_m ds <= max_m ds ->
  exists (ev : Evaluation) (s' : Session),
    evaluation ds fuel s = Some (ev, s') /\
    printed ev =
      Some (100 * (INR (length (filter
                                  (fun c => within_ten_percent (fst c) (snd c))
                                  (combine (pred ev) (MassRegression.truth ev))))
                   / INR test_size)).
Proof.
  intros Hpos Hord.
  destruct (evaluation_eq ds fuel s) as (Hp & _ & _ & Hev).
  cbv zeta in Hp, Hev.
  do 2 eexists. split; [exact Hev|].
  cbn [printed pred MassRegression.truth].
  unfold fraction_below. rewrite Hp. do 5 f_equal.
  apply filter_ext_in. intros [q t] Hin. cbn [fst snd].
  apply relative_error_band.
  apply in_combine_r in Hin.
  pose proof (uniform_range (min_m ds) (max_m ds) test_size
                (snd (drawn_p test_size (min_p ds) (max_p ds) (rng s))) Hord)
    as Hrange.
  rewrite Forall_forall in Hrange. specialize (Hrange t Hin). lra.
Qed.

End StepAndMetricFacts.

Section MetricRuns.
Import Concrete.

Lemma evaluation_counts_ten_percent_band_witness :
  0 < min_m notebook_data_spec /\
  min_m notebook_data_spec <= max_m notebook_data_spec /\
  exists (ev : Evaluation) (s' : Session),
    evaluation notebook_data_spec 0 session0 = Some (ev, s') /\
    printed ev =
      Some (100 * (INR (length (filter
                                  (fun c => within_ten_percent (fst c) (snd c))
                                  (combine (pred ev) (MassRegression.truth ev))))
                   / INR test_size)).
Proof.
  assert (Hpos : 0 < min_m notebook_data_spec) by (simpl; lra).
  assert (Hord : min_m notebook_data_spec <= max_m notebook_data_spec)
    by (simpl; lra).
  split; [exact Hpos|]. split; [exact Hord|].
  exact (evaluation_counts_ten_percent_band notebook_data_spec 0 session0
           Hpos Hord).
Defined.

End MetricRuns.

(** ** The model definition *)

Section ModelFacts.
Import ModelDefinition String.
Open Scope string_scope.

(** The layers one round of the loop appends. *)
Lemma stack_one_app (n_units : nat) (activation kernel_initializer : string)
    (batch_norm : bool) (a : list Layer) :
  stack_one n_units activation kernel_initializer batch_norm a =
  (a ++ (if batch_norm
         then (if activation =? "relu"
               then [Dense n_units None kernel_initializer;
                     Activation activation; BatchNormalization 1]
               else [Dense n_units None kernel_initializer;
                     BatchNormalization 1; Activation activation])
         else [Dense n_units None kernel_initializer; Activation activation]))%list.
Proof.
  unfold stack_one.
  destruct batch_norm, (activation =? "relu"); cbn [andb negb];
    rewrite <- ?app_assoc; reflexivity.
Qed.

Lemma stack_layers_app (n_layers n_units : nat)
    (activation kernel_initializer : string) (batch_norm : bool)
    (a : list Layer) :
  stack_layers n_layers n_units activation kernel_initializer batch_norm a =
  (a ++ List.concat (repeat (stack_one n_units activation kernel_initializer
                          batch_norm []) n_layers))%list.
Proof.
  revert a. induction n_layers as [|k IH]; intros a.
  - cbn. now rewrite app_nil_r.
  - cbn [stack_layers repeat List.concat]. rewrite IH, app_assoc. f_equal.
    now rewrite !stack_one_app.
Qed.

(** X19.  Every model of [get_model] is the input layer, a batch normalisation
    if [batch_norm_first] is set, [n_layers] copies of one hidden block,
    and a dense output layer with a single linear unit.  The hidden block
    is dense layer then activation; with [batch_norm] set and an
    activation other than selu it also holds a batch normalisation, placed
    after the activation for relu and before it for every other
    activation. *)
Theorem get_model_structure (n_inputs n_layers n_units : nat)
    (activation kernel_initializer : string)
    (batch_norm_first batch_norm : bool) :
  get_model n_inputs n_layers n_units activation kernel_initializer
            batch_norm_first batch_norm =
  ([Input n_inputs]
   ++ (if batch_norm_first then [BatchNormalization 1] else [])
   ++ List.concat (repeat
        (if (batch_norm && negb (activation =? "selu"))%bool
         then (if activation =? "relu"
               then [Dense n_units None kernel_initializer;
                     Activation activation; BatchNormalization 1]
               else [Dense n_units None kernel_initializer;
                     BatchNormalization 1; Activation activation])
         else [Dense n_units None kernel_initializer; Activation activation])
        n_layers)
   ++ [Dense 1 (Some "linear") "glorot_normal"])%list.
Proof.
  unfold get_model. rewrite stack_layers_app, stack_one_app.
  cbn [app]. rewrite <- !app_assoc.
  destruct batch_norm_first, batch_norm, (activation =? "selu");
    reflexivity.
Qed.

Lemma filter_concat_repeat (f : Layer -> bool) (block : list Layer) (k : nat) :
  List.length (filter f (List.concat (repeat block k))) =
  (k * List.length (filter f block))%nat.
Proof.
  induction k as [|k IH]; [reflexivity|].
  cbn [repeat List.concat]. rewrite filter_app, length_app, IH. reflexivity.
Qed.

(** X20.  Every model has [n_layers + 1] dense layers and [n_layers] activation
    layers; its batch normalisation layers are one if [batch_norm_first]
    is set, plus [n_layers] if [batch_norm] is set and the activation is
    not selu: with selu the flag [batch_norm] adds no layer. *)
Theorem get_model_layer_counts (n_inputs n_layers n_units : nat)
    (activation kernel_initializer : string)
    (batch_norm_first batch_norm : bool) :
  let model := get_model n_inputs n_layers n_units activation
                 kernel_initializer batch_norm_first batch_norm in
  List.length (filter is_dense model) = (n_layers + 1)%nat /\
  List.length (filter is_activation model) = n_layers /\
  List.length (filter is_batch_norm model) =
    Nat.add (if batch_norm_first then 1%nat else 0%nat)
            (if (batch_norm && negb (activation =? "selu"))%bool
             then n_layers else 0%nat).
Proof.
  cbv zeta. unfold get_model.
  rewrite stack_layers_app, stack_one_app.
  rewrite !filter_app, !length_app, !filter_concat_repeat.
  destruct batch_norm_first, batch_norm, (activation =? "selu"),
    (activation =? "relu"); cbn; repeat split; lia.
Qed.

End ModelFacts.

(** ** The feature-scaling layer: configuration, shapes, statistics *)

Section FeatureScalingMore.
Import KerasApi.

(** The output depends on the layer through its two members only. *)
Lemma call_ext (l1 l2 : FeatureScaling) (x : array2) :
  means l1 = means l2 -> stddevs l1 = stddevs l2 -> call l1 x = call l2 x.
Proof.
  intros Hm Hs. induction x as [|row x IH]; [reflexivity|].
  cbn [call]. unfold call_row. now rewrite Hm, Hs, IH.
Qed.

(** X21.  A layer constructed from the configuration of a layer has the same
    configuration and computes the same output on every batch, whatever
    the first layer has been through. *)
Theorem feature_scaling_config_round_trip (l : FeatureScaling) (x : array2) :
  let clone := init (fst (get_config l)) (snd (get_config l)) in
  get_config clone = get_config l /\
  call clone x = call l x /\
  fst (apply clone x) = fst (apply l x) /\
  trainable_variables clone = [].
Proof.
  cbv zeta. split; [reflexivity|]. split; [now apply call_ext|].
  split; [|reflexivity].
  unfold apply. cbn [fst]. apply call_ext; destruct (built l); reflexivity.
Qed.

(** The entries of the output on a batch of the layer's width. *)
Lemma call_entries (l : FeatureScaling) (x : array2) :
  length (stddevs l) = length (means l) ->
  Forall (fun row => length row = length (means l)) x ->
  exists rows : list (list (option R)),
    call l x = Some rows /\
    length rows = length x /\
    Forall (fun r => length r = length (means l)) rows /\
    forall i j : nat, (i < length x)%nat -> (j < length (means l))%nat ->
      nth j (nth i rows []) None =
      divide (nth j (nth i x []) 0 - nth j (means l) 0) (nth j (stddevs l) 0).
Proof.
  intros Hs Hx.
  exists (map (fun row => map2 divide (map2 Rminus row (means l)) (stddevs l)) x).
  split; [now apply call_eq|]. split; [apply length_map|]. split.
  - apply Forall_forall. intros r Hr. apply in_map_iff in Hr.
    destruct Hr as (row & <- & Hrow).
    rewrite Forall_forall in Hx. specialize (Hx row Hrow).
    rewrite map2_length; rewrite map2_length; congruence.
  - intros i j Hi Hj.
    assert (Hrow : length (nth i x []) = length (means l)).
    { rewrite Forall_forall in Hx. apply Hx. now apply nth_In. }
    rewrite (nth_indep _ [] (map2 divide (map2 Rminus [] (means l)) (stddevs l)))
      by (rewrite length_map; exact Hi).
    rewrite (map_nth (fun row => map2 divide (map2 Rminus row (means l))
                                   (stddevs l)) x [] i).
    rewrite map2_nth; [| rewrite map2_length; congruence
                       | rewrite map2_length; [lia | congruence]].
    rewrite map2_nth by (congruence || lia). reflexivity.
Qed.

(** X22.  On a batch of [n] rows of the layer's width [d], the shape the layer
    declares for the input shape [(n, d)] is the shape of what it
    computes: [n] rows of [d] entries. *)
Theorem feature_scaling_output_shape (l : FeatureScaling) (x : array2) :
  length (stddevs l) = length (means l) ->
  Forall (fun row => length row = length (means l)) x ->
  exists rows : list (list (option R)),
    call l x = Some rows /\
    compute_output_shape [length x; length (means l)]
      = Some (length rows, length (means l)) /\
    Forall (fun r => length r = length (means l)) rows.
Proof.
  intros Hs Hx.
  destruct (call_entries l x Hs Hx) as (rows & Hcall & Hlen & Hw & _).
  exists rows. split; [exact Hcall|]. split; [|exact Hw].
  cbn [compute_output_shape]. now rewrite Hlen.
Qed.

(** X23.  The declared shape is the input shape even where the computation
    broadcasts: on rows of one entry, a layer of width [d] other than 1
    returns rows of [d] entries, while [compute_output_shape] answers
    [(n, 1)]. *)
Theorem feature_scaling_broadcast_shape (l : FeatureScaling) (x : array2) :
  length (stddevs l) = length (means l) ->
  length (means l) <> 1%nat ->
  Forall (fun row => length row = 1%nat) x ->
  exists rows : list (list (option R)),
    call l x = Some rows /\
    length rows = length x /\
    Forall (fun r => length r = length (means l)) rows /\
    compute_output_shape [length x; 1%nat] = Some (length x, 1%nat).
Proof.
  intros Hs Hd Hx.
  assert (Hrow : forall row, length row = 1%nat ->
            exists r, call_row l row = Some r /\ length r = length (means l)).
  { intros [|v [|v' row]] Hlen; try discriminate.
    unfold call_row, broadcast at 1. cbn [length].
    destruct (Nat.eqb 1 (length (means l))) eqn:E;
      [apply Nat.eqb_eq in E; congruence|].
    rewrite (broadcast_same_length divide)
      by (rewrite length_map; congruence).
    eexists. split; [reflexivity|].
    rewrite map2_length; rewrite length_map; congruence. }
  induction Hx as [|row x Hlen _ IH].
  - exists []. repeat split; constructor.
  - destruct IH as (rows & Hcall & Hrows & Hw & _).
    destruct (Hrow row Hlen) as (r & Hr & Hrl).
    exists (r :: rows). cbn [call]. rewrite Hr, Hcall.
    split; [reflexivity|]. split; [cbn [length]; now rewrite Hrows|].
    split; [now constructor | reflexivity].
Qed.

(** X24.  Over real arithmetic, on a batch of the layer's width an output
    entry is not a finite number exactly when the standard deviation of
    its feature is zero.  (In floating point a quotient by a standard
    deviation that is not zero can overflow as well.) *)
Theorem feature_scaling_zero_stddev (l : FeatureScaling) (x : array2) :
  length (stddevs l) = length (means l) ->
  Forall (fun row => length row = length (means l)) x ->
  exists rows : list (list (option R)),
    call l x = Some rows /\
    forall i j : nat, (i < length x)%nat -> (j < length (means l))%nat ->
      (nth j (nth i rows []) None = None <-> nth j (stddevs l) 0 = 0).
Proof.
  intros Hs Hx.
  destruct (call_entries l x Hs Hx) as (rows & Hcall & _ & _ & Hentry).
  exists rows. split; [exact Hcall|].
  intros i j Hi Hj. rewrite (Hentry i j Hi Hj). unfold divide.
  destruct (Req_dec_T (nth j (stddevs l) 0) 0) as [Hz|Hnz].
  - split; auto.
  - split; [discriminate | contradiction].
Qed.

End FeatureScalingMore.

Section FeatureScalingMoreRuns.
Import KerasApi.

Lemma feature_scaling_output_shape_witness :
  length (stddevs (init [3; 5] [1; 2])) = length (means (init [3; 5] [1; 2])) /\
  Forall (fun row => length row = length (means (init [3; 5] [1; 2])))
         [[4; 9]; [2; 1]] /\
  exists rows : list (list (option R)),
    call (init [3; 5] [1; 2]) [[4; 9]; [2; 1]] = Some rows /\
    compute_output_shape [2%nat; 2%nat] = Some (length rows, 2%nat).
Proof.
  assert (Hs : length (stddevs (init [3; 5] [1; 2]))
               = length (means (init [3; 5] [1; 2]))) by reflexivity.
  assert (Hx : Forall (fun row => length row = length (means (init [3; 5] [1; 2])))
                      [[4; 9]; [2; 1]])
    by (repeat constructor).
  split; [exact Hs|]. split; [exact Hx|].
  destruct (feature_scaling_output_shape (init [3; 5] [1; 2]) [[4; 9]; [2; 1]]
              Hs Hx) as (rows & Hcall & Hshape & _).
  exists rows. split; [exact Hcall | exact Hshape].
Defined.

Lemma feature_scaling_broadcast_shape_witness :
  length (stddevs (init [3; 5] [1; 2])) = length (means (init [3; 5] [1; 2])) /\
  length (means (init [3; 5] [1; 2])) <> 1%nat /\
  Forall (fun row => length row = 1%nat) [[4]; [2]] /\
  exists rows : list (list (option R)),
    call (init [3; 5] [1; 2]) [[4]; [2]] = Some rows /\
    Forall (fun r => length r = 2%nat) rows /\
    compute_output_shape [2%nat; 1%nat] = Some (2%nat, 1%nat).
Proof.
  assert (Hs : length (stddevs (init [3; 5] [1; 2]))
               = length (means (init [3; 5] [1; 2]))) by reflexivity.
  assert (Hd : length (means (init [3; 5] [1; 2])) <> 1%nat) by discriminate.
  assert (Hx : Forall (fun row => length row = 1%nat) [[4]; [2]])
    by (repeat constructor).
  split; [exact Hs|]. split; [exact Hd|]. split; [exact Hx|].
  destruct (feature_scaling_broadcast_shape (init [3; 5] [1; 2]) [[4]; [2]]
              Hs Hd Hx) as (rows & Hcall & _ & Hw & Hshape).
  exists rows. split; [exact Hcall|]. split; [exact Hw | exact Hshape].
Defined.

(** A layer whose second feature has standard deviation 0. *)
Lemma feature_scaling_zero_stddev_witness :
  length (stddevs (init [3; 5] [1; 0])) = length (means (init [3; 5] [1; 0])) /\
  Forall (fun row => length row = length (means (init [3; 5] [1; 0])))
         [[4; 9]] /\
  exists rows : list (list (option R)),
    call (init [3; 5] [1; 0]) [[4; 9]] = Some rows /\
    nth 1 (nth 0 rows []) None = None.
Proof.
  assert (Hs : length (stddevs (init [3; 5] [1; 0]))
               = length (means (init [3; 5] [1; 0]))) by reflexivity.
  assert (Hx : Forall (fun row => length row = length (means (init [3; 5] [1; 0])))
                      [[4; 9]])
    by (repeat constructor).
  split; [exact Hs|]. split; [exact Hx|].
  destruct (feature_scaling_zero_stddev (init [3; 5] [1; 0]) [[4; 9]] Hs Hx)
    as (rows & Hcall & Hentry).
  exists rows. split; [exact Hcall|].
  apply (Hentry 0%nat 1%nat); [cbn; lia | cbn; lia | reflexivity].
Defined.

End FeatureScalingMoreRuns.

Section FeatureStatistics.
Import KerasApi.

Lemma nth_map_seq (f : nat -> R) (d j : nat) :
  (j < d)%nat -> nth j (map f (seq 0 d)) 0 = f j.
Proof.
  intros Hj. rewrite (nth_indep _ 0 (f 0%nat)) by now rewrite length_map, length_seq.
  rewrite map_nth, seq_nth by exact Hj. reflexivity.
Qed.

Lemma sum_cons (v : R) (l : array) : sum (v :: l) = v + sum l.
Proof. reflexivity. Qed.

Lemma sum_centered (mu sigma : R) (l : array) :
  sum (map (fun v => (v - mu) / sigma) l) =
  (sum l - INR (length l) * mu) / sigma.
Proof.
  induction l as [|v l IH].
  - cbn. unfold Rdiv. ring.
  - cbn [map]. rewrite !sum_cons, IH. cbn [length]. rewrite S_INR.
    unfold Rdiv. ring.
Qed.

Lemma sum_centered_squares (mu sigma : R) (l : array) :
  sum (map (fun v => v * v) (map (fun v => (v - mu) / sigma) l)) =
  sum (map (fun v => (v - mu) * (v - mu)) l) * (/ sigma * / sigma).
Proof.
  induction l as [|v l IH].
  - cbn. ring.
  - cbn [map]. rewrite !sum_cons, IH. unfold Rdiv. ring.
Qed.

Lemma sum_deviations_nonneg (mu : R) (l : array) :
  0 <= sum (map (fun v => (v - mu) * (v - mu)) l).
Proof.
  induction l as [|v l IH]; [cbn; lra|].
  cbn [map]. rewrite sum_cons.
  pose proof (Rle_0_sqr (v - mu)) as Hsq. unfold Rsqr in Hsq. lra.
Qed.

(** X25.  The layer on the data its statistics were measured on, over real
    arithmetic: with [means] and [stddevs] the per-feature mean and
    standard deviation of a batch, every feature of that batch whose
    standard deviation is not zero comes out of the layer as finite
    numbers with mean exactly 0 and mean square exactly 1.  (In floating
    point both hold up to rounding.) *)
Theorem feature_scaling_standardises
    (x : array2) (mu sd : array) (j : nat) :
  Forall (fun row => length row = width x) x ->
  mean_axis0 x = Some mu -> std_axis0 x = Some sd ->
  (j < width x)%nat -> nth j sd 0 <> 0 ->
  exists (rows : list (list (option R))) (scaled : array),
    call (init mu sd) x = Some rows /\
    map (fun row => nth j row None) rows = map Some scaled /\
    mean scaled = Some 0 /\
    mean (map (fun v => v * v) scaled) = Some 1.
Proof.
  intros Hrect Hmu Hsd Hj Hnz.
  destruct x as [|r0 x']; [discriminate|].
  set (X := r0 :: x') in *.
  assert (Hn : (0 < length X)%nat) by (subst X; cbn [length]; lia).
  pose proof (lt_0_INR _ Hn) as Hnpos.
  unfold mean_axis0 in Hmu. unfold std_axis0 in Hsd.
  subst X. injection Hmu as Hmu. injection Hsd as Hsd.
  set (X := r0 :: x') in *.
  assert (Hlmu : length mu = width X) by (subst mu; now rewrite length_map, length_seq).
  assert (Hlsd : length sd = width X) by (subst sd; now rewrite length_map, length_seq).
  set (col := column j X).
  assert (Hmuj : nth j mu 0 = sum col / INR (length X)).
  { subst mu. now rewrite nth_map_seq. }
  assert (Hsdj : nth j sd 0 =
                 sqrt (sum (map (fun v => (v - nth j mu 0) * (v - nth j mu 0)) col)
                       / INR (length X))).
  { rewrite Hmuj. subst sd. now rewrite nth_map_seq. }
  set (m := nth j mu 0) in *. set (sg := nth j sd 0) in *.
  set (S2 := sum (map (fun v => (v - m) * (v - m)) col)) in *.
  assert (HS2 : 0 <= S2) by apply sum_deviations_nonneg.
  assert (Hvar : sg * sg = S2 / INR (length X)).
  { rewrite Hsdj. apply sqrt_sqrt.
    apply Rmult_le_pos; [exact HS2 | now apply Rlt_le, Rinv_0_lt_compat]. }
  exists (map (fun row => map2 divide (map2 Rminus row mu) sd) X),
         (map (fun v => (v - m) / sg) col).
  assert (Hlcol : length col = length X) by (subst col; apply length_map).
  assert (Hlsc : (0 < length (map (fun v : R => ((v - m) / sg)%R) col))%nat)
    by (rewrite length_map, Hlcol; exact Hn).
  split; [|split; [|split]].
  - apply call_eq; cbn [means stddevs init]; [congruence|].
    eapply Forall_impl; [|exact Hrect]. cbv beta. intros row Hrow. congruence.
  - subst col. unfold column. rewrite !map_map. apply map_ext_in.
    intros row Hin. rewrite Forall_forall in Hrect. specialize (Hrect row Hin).
    rewrite map2_nth; [| rewrite map2_length; congruence
                       | rewrite map2_length; [lia | congruence]].
    rewrite map2_nth by (congruence || lia).
    fold m sg. unfold divide.
    destruct (Req_dec_T sg 0); [contradiction | reflexivity].
  - rewrite (mean_nonempty _ Hlsc). f_equal.
    rewrite sum_centered, length_map, Hlcol, Hmuj.
    unfold Rdiv. replace (sum col - INR (length X) * (sum col * / INR (length X)))
      with 0 by (field; lra).
    ring.
  - assert (Hlsq : (0 < length (map (fun v : R => (v * v)%R)
                                  (map (fun v : R => ((v - m) / sg)%R) col)))%nat)
      by (rewrite length_map; exact Hlsc).
    rewrite (mean_nonempty _ Hlsq). f_equal.
    rewrite sum_centered_squares, !length_map, Hlcol. fold S2.
    assert (HS2n : S2 = sg * sg * INR (length X)) by (rewrite Hvar; field; lra).
    rewrite HS2n. field. split; solve [lra | exact Hnz].
Qed.

End FeatureStatistics.

Section FeatureStatisticsRuns.
Import KerasApi Concrete.

Lemma small_batch_first_stddev : nth 0 small_batch_stddevs 0 <> 0.
Proof.
  unfold small_batch_stddevs, std_axis0, small_batch, width, column.
  cbn [hd length seq map nth].
  match goal with
  | |- sqrt ?v <> 0 => replace v with 1 by (cbn; field)
  end.
  rewrite sqrt_1. lra.
Qed.

(** The first feature of the small batch, scaled with the batch's own
    statistics. *)
Lemma feature_scaling_standardises_witness :
  Forall (fun row => length row = width small_batch) small_batch /\
  mean_axis0 small_batch = Some small_batch_means /\
  std_axis0 small_batch = Some small_batch_stddevs /\
  (0 < width small_batch)%nat /\
  nth 0 small_batch_stddevs 0 <> 0 /\
  exists (rows : list (list (option R))) (scaled : array),
    call (init small_batch_means small_batch_stddevs) small_batch = Some rows /\
    map (fun row => nth 0 row None) rows = map Some scaled /\
    mean scaled = Some 0 /\
    mean (map (fun v => v * v) scaled) = Some 1.
Proof.
  assert (Hrect : Forall (fun row => length row = width small_batch) small_batch)
    by (repeat constructor).
  assert (Hmu : mean_axis0 small_batch = Some small_batch_means) by reflexivity.
  assert (Hsd : std_axis0 small_batch = Some small_batch_stddevs) by reflexivity.
  assert (Hj : (0 < width small_batch)%nat) by (cbn; lia).
  split; [exact Hrect|]. split; [exact Hmu|]. split; [exact Hsd|].
  split; [exact Hj|]. split; [exact small_batch_first_stddev|].
  exact (feature_scaling_standardises small_batch small_batch_means
           small_batch_stddevs 0 Hrect Hmu Hsd Hj small_batch_first_stddev).
Defined.

End FeatureStatisticsRuns.

(** ** The gradients notebook *)

Section GradientFacts.
Import Gradients.
Context `{AutoDiff}.

(** A function [t -> a * t + b] has derivative [a] everywhere. *)
Lemma derivable_affine (g : R -> R) (a b t0 : R) :
  (forall t, g t = a * t + b) -> derivable_pt_lim g t0 a.
Proof.
  intros Hg eps Heps. exists (mkposreal 1 Rlt_0_1). intros h Hh _.
  rewrite !Hg.
  replace ((a * (t0 + h) + b - (a * t0 + b)) / h - a) with 0 by (field; exact Hh).
  now rewrite Rabs_R0.
Qed.

(** X26.  [func] returns the value [(x + y) * z] and the gradients
    [[z; z; x + y]]: the derivative with respect to [x] and to [y] is [z],
    the derivative with respect to [z] is the sum [x + y]. *)
Theorem func_value_and_gradients (x y z : R) :
  func x y z = ((x + y) * z, [z; z; x + y]).
Proof.
  unfold func. f_equal.
  apply gradients_partial.
  - apply (derivable_affine _ z (y * z)). intros t. unfold func_node. ring.
  - apply (derivable_affine _ z (x * z)). intros t. unfold func_node. ring.
  - apply (derivable_affine _ (x + y) 0). intros t. unfold func_node. ring.
Qed.

End GradientFacts.

(** ** The sampler and the generator *)

Section SamplerAndGenerator.

Lemma uniform_same_doubles (G : Type) (RS1 RS2 : RandomState G)
    (low high : R) (n : nat) (g : G) :
  (forall g0, @random_sample G RS1 g0 = @random_sample G RS2 g0) ->
  @Random.uniform G RS1 low high n g = @Random.uniform G RS2 low high n g.
Proof.
  intros Hsame. unfold Random.uniform. revert g.
  induction n as [|n IH]; intros g; [reflexivity|].
  cbn [Random.draws]. rewrite Hsame.
  destruct (@random_sample G RS2 g) as [u g1]. now rewrite IH.
Qed.

(** X6.  The batch does not depend on the normal deviates of the generator:
    two generators that agree on their doubles give the same batch, the
    same masses and leave the same state, whatever their normal deviates
    and whatever bound each run puts on its loop. *)
Theorem get_data_ignores_normal_deviates (G : Type) (RS1 RS2 : RandomState G)
    (fuel1 fuel2 n : nat) (min_p max_p min_m max_m : R) (cartesian : bool)
    (g : G) :
  (forall g0, @random_sample G RS1 g0 = @random_sample G RS2 g0) ->
  @get_data G RS1 fuel1 n min_p max_p min_m max_m cartesian g =
  @get_data G RS2 fuel2 n min_p max_p min_m max_m cartesian g.
Proof.
  intros Hsame. rewrite !get_data_eq.
  unfold drawn_batch, drawn_phi, drawn_m, drawn_p.
  rewrite !(uniform_same_doubles G RS1 RS2) by exact Hsame.
  reflexivity.
Qed.

(** X7.  A call for no sample returns the empty batch and the empty mass
    vector and leaves the generator as it was: the mean of the empty mask
    is not a number, which ends the loop before its first run. *)
Theorem get_data_no_samples (G : Type) (RS : RandomState G)
    (fuel : nat) (min_p max_p min_m max_m : R) (cartesian : bool) (g : G) :
  mean_bool (abs_gt (zeros_like []) 2.5) = None /\
  get_data fuel 0 min_p max_p min_m max_m cartesian g = Some ([], [], g).
Proof.
  split; [reflexivity|].
  rewrite get_data_eq. destruct cartesian; reflexivity.
Qed.

Lemma get_data_ignores_normal_deviates_witness :
  (forall g0 : nat * nat,
     @random_sample _ Concrete.ConstGen g0
     = @random_sample _ Concrete.ConstGenOtherNormals g0) /\
  @get_data _ Concrete.ConstGen 0 64 0 200 0.1 100 true (0%nat, 0%nat) =
  @get_data _ Concrete.ConstGenOtherNormals 5 64 0 200 0.1 100 true (0%nat, 0%nat).
Proof.
  assert (Hsame : forall g0 : nat * nat,
            @random_sample _ Concrete.ConstGen g0
            = @random_sample _ Concrete.ConstGenOtherNormals g0)
    by (intros g0; reflexivity).
  split; [exact Hsame|].
  exact (get_data_ignores_normal_deviates _ Concrete.ConstGen
           Concrete.ConstGenOtherNormals 0 5 64 0 200 0.1 100 true
           (0%nat, 0%nat) Hsame).
Defined.

End SamplerAndGenerator.
